(** * The OpenAI assistant agent of the cookbook notebook

    A shallow embedding of the four message handlers of
    [OpenAIAssistantAgent] (cookbook/openai-assistant-agent.ipynb) as
    interaction trees over the calls they await, an executable runner of
    such trees against an arbitrary environment, a small model of the
    vendor service, and the properties of the handlers. *)

From Stdlib Require Import List String Ascii Strings.Byte Bool Arith Lia DecimalString.
From ITree Require Import ITree Eq.Shallow.
Import ListNotations.
Local Open Scope string_scope.
Local Open Scope list_scope.

Set Implicit Arguments.

(* ===================================================================== *)
(** * Message protocol (the four dataclasses) *)

Module TextMessage.
Record t := mk { content : string; source : string }.
End TextMessage.

Module Reset.
Record t := mk { }.
End Reset.

Module UploadForCodeInterpreter.
Record t := mk { file_path : string }.
End UploadForCodeInterpreter.

Module UploadForFileSearch.
Record t := mk { file_path : string; vector_store_id : string }.
End UploadForFileSearch.

(* ===================================================================== *)
(** * Values exchanged with the vendor client

    Only the fields the handlers read are kept. *)

Module Text.
Record t := mk { value : string }.
End Text.

(** A content part of a thread message; [type] is its discriminating tag. *)
Inductive MessageContent : Type :=
| TextContentBlock (text : Text.t)
| ImageFileContentBlock (file_id : string)
| ImageURLContentBlock (url : string)
| RefusalContentBlock (refusal : string).

Definition type (content : MessageContent) : string :=
  match content with
  | TextContentBlock _ => "text"
  | ImageFileContentBlock _ => "image_file"
  | ImageURLContentBlock _ => "image_url"
  | RefusalContentBlock _ => "refusal"
  end.

(** The attribute [.text]: only text blocks have it. *)
Definition text (content : MessageContent) : option Text.t :=
  match content with
  | TextContentBlock t => Some t
  | _ => None
  end.

Module Message.
Record t := mk { id : string; role : string; content : list MessageContent }.
End Message.

(** A page of a cursor-paginated list; [has_next_page] is what the
    method of that name answers. *)
Module Page.
Record t := mk { data : list Message.t; has_next_page : bool }.
End Page.

Module MessageDeleted.
Record t := mk { id : string; deleted : bool }.
End MessageDeleted.

Module FileObject.
Record t := mk { id : string; filename : string }.
End FileObject.

Module ToolResourcesCodeInterpreter.
Record t := mk { file_ids : option (list string) }.
End ToolResourcesCodeInterpreter.

Module ToolResourcesFileSearch.
Record t := mk { vector_store_ids : option (list string) }.
End ToolResourcesFileSearch.

Module ToolResources.
Record t := mk { code_interpreter : option ToolResourcesCodeInterpreter.t;
                   file_search : option ToolResourcesFileSearch.t }.
  (** [ToolResources()]: every field at its default, [None]. *)
Definition default : t := mk None None.
End ToolResources.

Module Thread.
Record t := mk { id : string; tool_resources : option ToolResources.t }.
End Thread.

Module VectorStoreFileBatch.
Record t := mk { id : string; status : string }.
End VectorStoreFileBatch.

(** The [tool_resources=] argument of the thread update is a dict literal
    of dicts; kept as nested association lists. *)
Definition dict (V : Type) : Type := list (string * V).

Fixpoint get {V : Type} (key : string) (d : dict V) : option V :=
  match d with
  | [] => None
  | (k, v) :: d' => if String.eqb k key then Some v else get key d'
  end.

(** Python exceptions the handlers raise or let through. *)
Inductive exn : Type :=
| CancelledError
| ValueError (last_message_content : list MessageContent)
| AssertionError
| IndexError
| AttributeError
| OSError (msg : string)
| APIError (msg : string).

(* ===================================================================== *)
(** * Awaited operations *)

(** Handles of the two context managers. *)
Definition file : Type := nat.
Definition stream : Type := nat.

(** The coroutines the handlers await, indexed by the type of their
    result.  [runs_stream] and [aiofiles_open] are the [__aenter__] of the
    two [async with] blocks, [stream_exit] and [file_exit] their
    [__aexit__]. *)
Variant op : Type -> Type :=
| messages_create (thread_id content role : string)
                  (metadata : dict string) : op Message.t
| runs_stream (thread_id assistant_id : string) : op stream
| stream_exit (s : stream) : op unit
| until_done (s : stream) : op unit
| messages_list (thread_id : string) (order : option string)
                (limit : option nat) (after : option string) : op Page.t
| messages_delete (message_id thread_id : string) : op MessageDeleted.t
| aiofiles_open (file_path mode : string) : op file
| file_exit (f : file) : op unit
| read (f : file) : op (list byte)
| files_create (file : string * list byte) (purpose : string) : op FileObject.t
| threads_retrieve (thread_id : string) : op Thread.t
| threads_update (thread_id : string)
                 (tool_resources : dict (dict (list string))) : op Thread.t
| upload_and_poll (vector_store_id : string)
                  (files : list (string * list byte)) : op VectorStoreFileBatch.t.

(** Which operations reach the vendor service over the network; the file
    operations are local. *)
Definition remote {X} (o : op X) : bool :=
  match o with
  | aiofiles_open _ _ | file_exit _ | read _ => false
  | stream_exit _ => false
  | _ => true
  end.

(** Modelled from the spec: the cancellation token of the message context
    ([ctx.cancellation_token], a class of the runtime, absent from the
    notebook).  A future registered with [link_future] is aborted when the
    token is cancelled and awaiting it then raises [CancelledError]; a
    coroutine awaited directly is out of the token's reach.  The two ways
    of awaiting are the two events; both are answered by the result of
    the operation or by the exception it raised. *)
Variant awaitE : Type -> Type :=
| Linked {X} (o : op X) : awaitE (exn + X)%type
| Direct {X} (o : op X) : awaitE (exn + X)%type.

(* ===================================================================== *)
(** * The handler monad: interaction trees with Python exceptions *)

Definition M (X : Type) : Type := itree awaitE (exn + X).

Definition ret {X} (x : X) : M X := Ret (inr x).

Definition raise {X} (e : exn) : M X := Ret (inl e).

Definition bind {X Y} (m : M X) (k : X -> M Y) : M Y :=
  ITree.bind m (fun r => match r with
                         | inl e => Ret (inl e)
                         | inr x => k x
                         end).

Declare Scope agent_scope.
Delimit Scope agent_scope with agent.
Notation "x <- m ;; k" := (bind m (fun x => k))
  (at level 61, m at next level, right associativity) : agent_scope.
Notation "m ;; k" := (bind m (fun _ => k))
  (at level 61, right associativity) : agent_scope.
Local Open Scope agent_scope.

(** [await ctx.cancellation_token.link_future(asyncio.ensure_future(o))] *)
Definition await {X} (o : op X) : M X := ITree.trigger (Linked o).

(** [await o] *)
Definition await_direct {X} (o : op X) : M X := ITree.trigger (Direct o).

(** [async with enter as h: body]: the exit runs however the body ends;
    an exception of the exit replaces the outcome of the body. *)
Definition async_with {H X} (enter : op H) (exit : H -> op unit)
           (body : H -> M X) : M X :=
  h <- await_direct enter ;;
  ITree.bind (body h) (fun outcome =>
  ITree.bind (await_direct (exit h)) (fun closed =>
  match closed with
  | inl e => Ret (inl e)
  | inr _ => Ret outcome
  end)).

(** [assert b] *)
Definition assert (b : bool) : M unit :=
  if b then ret tt else raise AssertionError.

(** [while True: i = body(i)], where the body either goes round again
    ([inl]) or breaks ([inr]). *)
Definition while_true {I X} (body : I -> M (I + X)) : I -> M X :=
  ITree.iter (fun i =>
    ITree.bind (body i) (fun r =>
      match r with
      | inl e => Ret (inr (inl e))
      | inr (inl i') => Ret (inl i')
      | inr (inr x) => Ret (inr (inr x))
      end)).

(** [for x in l: body(x)] *)
Fixpoint for_each {A} (l : list A) (body : A -> M unit) : M unit :=
  match l with
  | [] => ret tt
  | x :: l' => body x ;; for_each l' body
  end.

(* ===================================================================== *)
(** * [os.path.basename] (posixpath) *)

(** [p.rfind(c)]; [None] stands for the -1 of Python. *)
Fixpoint rfind (c : ascii) (p : string) : option nat :=
  match p with
  | EmptyString => None
  | String a p' =>
      match rfind c p' with
      | Some i => Some (S i)
      | None => if Ascii.eqb a c then Some 0 else None
      end
  end.

(** [p[i:]] *)
Fixpoint slice_from (i : nat) (p : string) : string :=
  match i, p with
  | 0, _ => p
  | S i', String _ p' => slice_from i' p'
  | S _, EmptyString => EmptyString
  end.

(** [i = p.rfind(sep) + 1; return p[i:]] *)
Definition basename (p : string) : string :=
  let i := match rfind "/"%char p with Some j => j + 1 | None => 0 end in
  slice_from i p.

(* ===================================================================== *)
(** * The agent *)

Module AgentId.
Record t := mk { type : string; key : string }.
End AgentId.

Module AgentMetadata.
Record t := mk { type : string; key : string; description : string }.
End AgentMetadata.

(** The constructor arguments the handlers use, and the identifier the
    runtime binds the instance to.  The client is the environment of the
    runs below; the event handler made by the factory only prints what the
    run streams and hands nothing back to the agent. *)
Record OpenAIAssistantAgent : Type := {
  id : AgentId.t;
  _description : string;
  _assistant_id : string;
  _thread_id : string
}.

(** Modelled from the spec: the [metadata] property of the agent base
    class (absent from the notebook), whose ["type"] entry is the agent's
    own identifier, the type it was registered under. *)
Definition metadata (self : OpenAIAssistantAgent) : AgentMetadata.t :=
  AgentMetadata.mk (AgentId.type (id self)) (AgentId.key (id self))
                   (_description self).

Section Handlers.

Variable self : OpenAIAssistantAgent.

(** Handle a message: add it to the thread, run the assistant, answer
    with the text of the newest thread message. *)
Definition handle_message (message : TextMessage.t) : M TextMessage.t :=
  (* Save the message to the thread. *)
  await (messages_create (_thread_id self) (TextMessage.content message)
           "user" [("sender", TextMessage.source message)]) ;;
  (* Generate a response. *)
  async_with (runs_stream (_thread_id self) (_assistant_id self)) stream_exit
    (fun stream => await (until_done stream)) ;;
  (* Get the last message. *)
  messages <- await (messages_list (_thread_id self) (Some "desc") (Some 1)
                       None) ;;
  last_message_content <-
    match Page.data messages with
    | [] => raise IndexError
    | m :: _ => ret (Message.content m)
    end ;;
  (* Get the text content from the last message. *)
  let text_content :=
    filter (fun content => String.eqb (type content) "text")
           last_message_content in
  match text_content with
  | [] => raise (ValueError last_message_content)
  | content0 :: _ =>
      match text content0 with
      | None => raise AttributeError
      | Some t =>
          ret (TextMessage.mk (Text.value t)
                              (AgentMetadata.type (metadata self)))
      end
  end.

(** One round of the [while True] loop of [on_reset]: list the page
    after the last id collected, collect its ids, go round again while
    the page has a next one. *)
Definition list_more (all_msgs : list string)
  : M (list string + list string) :=
  msgs <-
    match all_msgs with
    | [] => await (messages_list (_thread_id self) None None None)
    | _ :: _ =>
        await (messages_list (_thread_id self) None None
                 (Some (last all_msgs "")))
    end ;;
  let all_msgs := all_msgs ++ map Message.id (Page.data msgs) in
  if negb (Page.has_next_page msgs)
  then ret (inr all_msgs)
  else ret (inl all_msgs).

(** The body of the [for] loop of [on_reset]. *)
Definition delete_one (msg_id : string) : M unit :=
  status <- await (messages_delete msg_id (_thread_id self)) ;;
  assert (MessageDeleted.deleted status).

(** Handle a reset message: delete all messages in the thread. *)
Definition on_reset (message : Reset.t) : M unit :=
  (* Get all messages in this thread. *)
  all_msgs <- while_true list_more [] ;;
  (* Delete all the messages. *)
  for_each all_msgs delete_one.

(** Handle an upload for code interpreter: upload a file and update the
    thread with the file. *)
Definition on_upload_for_code_interpreter
           (message : UploadForCodeInterpreter.t) : M unit :=
  (* Get the file content. *)
  file_content <-
    async_with (aiofiles_open (UploadForCodeInterpreter.file_path message)
                              "rb") file_exit
      (fun f => await (read f)) ;;
  let file_name := basename (UploadForCodeInterpreter.file_path message) in
  (* Upload the file. *)
  file <- await (files_create (file_name, file_content) "assistants") ;;
  (* Get existing file ids from tool resources. *)
  thread <- await (threads_retrieve (_thread_id self)) ;;
  let tool_resources :=
    match Thread.tool_resources thread with
    | Some r => r
    | None => ToolResources.default
    end in
  match ToolResources.code_interpreter tool_resources with
  | None => raise AssertionError
  | Some code_interpreter =>
      let file_ids :=
        match ToolResourcesCodeInterpreter.file_ids code_interpreter with
        | Some (i :: l) => i :: l
        | Some [] | None => [FileObject.id file]
        end in
      (* Update thread with new file. *)
      await (threads_update (_thread_id self)
               [("code_interpreter", [("file_ids", file_ids)])]) ;;
      ret tt
  end.

(** Handle an upload for file search: upload a file and update the
    vector store. *)
Definition on_upload_for_file_search
           (message : UploadForFileSearch.t) : M unit :=
  (* Get the file content. *)
  file_content <-
    async_with (aiofiles_open (UploadForFileSearch.file_path message) "rb")
               file_exit
      (fun file => await (read file)) ;;
  let file_name := basename (UploadForFileSearch.file_path message) in
  (* Upload the file. *)
  await (upload_and_poll (UploadForFileSearch.vector_store_id message)
           [(file_name, file_content)]) ;;
  ret tt.

(** The messages the agent is routed, and the routing by message type. *)
Inductive message : Type :=
| AText (m : TextMessage.t)
| AReset (m : Reset.t)
| AUploadForCodeInterpreter (m : UploadForCodeInterpreter.t)
| AUploadForFileSearch (m : UploadForFileSearch.t).

Definition on_message (m : message) : M (option TextMessage.t) :=
  match m with
  | AText m => r <- handle_message m ;; ret (Some r)
  | AReset m => on_reset m ;; ret None
  | AUploadForCodeInterpreter m => on_upload_for_code_interpreter m ;; ret None
  | AUploadForFileSearch m => on_upload_for_file_search m ;; ret None
  end.

End Handlers.

(* ===================================================================== *)
(** * Running a handler against an environment *)

(** One awaited operation as the log of a run keeps it: how it was
    awaited, the operation, and what the environment answered. *)
Record entry : Type := Entry {
  linked : bool;
  ty : Type;
  call : op ty;
  reply : (exn + ty)%type
}.

Definition record {X} (e : awaitE X) : X -> entry :=
  match e in awaitE X return X -> entry with
  | Linked o => fun r => Entry true o r
  | Direct o => fun r => Entry false o r
  end.

(** What a run that ends leaves: the fuel not used, the final state of the
    environment, the awaited operations in order, the outcome. *)
Record ran (St R : Type) : Type := Ran {
  fuel_left : nat;
  final : St;
  log : list entry;
  outcome : R
}.

Section Run.

Context {St : Type}.

(** The environment: the file system, the vendor service and the
    cancellation token together, answering every awaited operation. *)
Variable env : forall X, awaitE X -> St -> St * X.

(** One unit of fuel per awaited operation and per silent step. *)
Fixpoint run {R} (fuel : nat) (t : itree awaitE R) (s : St)
  : option (ran St R) :=
  match observe t with
  | RetF r => Some (Ran fuel s [] r)
  | TauF t' =>
      match fuel with
      | 0 => None
      | S fuel' => run fuel' t' s
      end
  | VisF e k =>
      match fuel with
      | 0 => None
      | S fuel' =>
          let (s', x) := env e s in
          match run fuel' (k x) s' with
          | Some r => Some (Ran (fuel_left r) (final r)
                                (record e x :: log r) (outcome r))
          | None => None
          end
      end
  end.

(** Sequencing of runs: the second starts from what the first left. *)
Definition and_then {A B} (r : option (ran St A))
           (k : nat -> St -> A -> option (ran St B)) : option (ran St B) :=
  match r with
  | None => None
  | Some a =>
      match k (fuel_left a) (final a) (outcome a) with
      | None => None
      | Some b => Some (Ran (fuel_left b) (final b) (log a ++ log b)
                            (outcome b))
      end
  end.

End Run.

(* ===================================================================== *)
(** * Reading the log of a run *)

Fixpoint pick {A} (f : entry -> option A) (l : list entry) : list A :=
  match l with
  | [] => []
  | e :: l' =>
      match f e with
      | Some a => a :: pick f l'
      | None => pick f l'
      end
  end.

(** The operation of an entry, whatever its result type. *)
Definition is_list (e : entry) : bool :=
  match call e with messages_list _ _ _ _ => true | _ => false end.

Definition is_delete (e : entry) : bool :=
  match call e with messages_delete _ _ => true | _ => false end.

Definition is_remote (e : entry) : bool := remote (call e).

Definition raised (e : entry) : option exn :=
  match reply e with inl x => Some x | inr _ => None end.

(** The message a delete call names. *)
Definition deleted_id (e : entry) : option string :=
  match call e with messages_delete i _ => Some i | _ => None end.

(** A delete call whose answer does not carry [deleted = True]. *)
Definition delete_refused (e : entry) : bool :=
  match call e in op X return (exn + X) -> bool with
  | messages_delete _ _ => fun r =>
      match r with
      | inr status => negb (MessageDeleted.deleted status)
      | inl _ => false
      end
  | _ => fun _ => false
  end (reply e).

(** The thread a retrieve call answered with. *)
Definition retrieved (e : entry) : option Thread.t :=
  match call e in op X return (exn + X) -> option Thread.t with
  | threads_retrieve _ => fun r =>
      match r with inr t => Some t | inl _ => None end
  | _ => fun _ => None
  end (reply e).

(** The file object an upload to the file store answered with. *)
Definition created (e : entry) : option FileObject.t :=
  match call e in op X return (exn + X) -> option FileObject.t with
  | files_create _ _ => fun r =>
      match r with inr f => Some f | inl _ => None end
  | _ => fun _ => None
  end (reply e).

(** The page a list call answered with. *)
Definition listed (e : entry) : option Page.t :=
  match call e in op X return (exn + X) -> option Page.t with
  | messages_list _ _ _ _ => fun r =>
      match r with inr p => Some p | inl _ => None end
  | _ => fun _ => None
  end (reply e).

(** The content a read of a local file answered with. *)
Definition read_content (e : entry) : option (list byte) :=
  match call e in op X return (exn + X) -> option (list byte) with
  | read _ => fun r =>
      match r with inr c => Some c | inl _ => None end
  | _ => fun _ => None
  end (reply e).

(** The [tool_resources] argument of a thread update. *)
Definition update_argument (e : entry) : option (dict (dict (list string))) :=
  match call e with threads_update _ d => Some d | _ => None end.

(** The code-interpreter file id list a thread update writes. *)
Definition written_file_ids (e : entry) : option (list string) :=
  match update_argument e with
  | Some d =>
      match get "code_interpreter" d with
      | Some c => get "file_ids" c
      | None => None
      end
  | None => None
  end.

(** The (name, content) pairs sent to the vendor, by either upload. *)
Definition uploaded_file (e : entry) : option (list (string * list byte)) :=
  match call e with
  | files_create f _ => Some [f]
  | upload_and_poll _ fs => Some fs
  | _ => None
  end.

(** The vector store an upload-and-poll names, when it was answered. *)
Definition polled (e : entry) : option string :=
  match call e in op X return (exn + X) -> option string with
  | upload_and_poll v _ => fun r =>
      match r with inr _ => Some v | inl _ => None end
  | _ => fun _ => None
  end (reply e).

(** The code-interpreter file ids a thread carries, when it has tool
    resources with a code-interpreter entry. *)
Definition existing_file_ids (thread : Thread.t) : option (option (list string)) :=
  match Thread.tool_resources thread with
  | Some r =>
      match ToolResources.code_interpreter r with
      | Some c => Some (ToolResourcesCodeInterpreter.file_ids c)
      | None => None
      end
  | None => None
  end.

(** The exception a run ended with, if any. *)
Definition thrown {X} (out : exn + X) : option exn :=
  match out with inl x => Some x | inr _ => None end.

(** What in an answer ends a handler: the exception the operation raised,
    or, for a delete, an answer without [deleted = True]. *)
Definition failure (e : entry) : option exn :=
  match raised e with
  | Some x => Some x
  | None => if delete_refused e then Some AssertionError else None
  end.

(** The log of a run that stops at the first failing answer. *)
Fixpoint halts (l : list entry) (out : option exn) : Prop :=
  match l with
  | [] => True
  | e :: l' =>
      match failure e with
      | None => halts l' out
      | Some x => l' = [] /\ out = Some x
      end
  end.

(** What an [async with] block holds open. *)
Variant handle : Type :=
| AStream (s : stream)
| AFile (f : file).

(** The handle an operation awaited in the body of an [async with] block
    works on, and the handle an [__aexit__] closes. *)
Definition body_of (e : entry) : option handle :=
  match call e with
  | until_done s => Some (AStream s)
  | read f => Some (AFile f)
  | _ => None
  end.

Definition exit_of (e : entry) : option handle :=
  match call e with
  | stream_exit s => Some (AStream s)
  | file_exit f => Some (AFile f)
  | _ => None
  end.

(** The log of a run that unwinds at the first exception: nothing follows
    it, but, when it was raised in the body of an [async with] block, the
    exit of that block, awaited directly; the run ends with the
    exception, or with the one the exit raised. *)
Fixpoint unwinds (l : list entry) (out : option exn) : Prop :=
  match l with
  | [] => True
  | e :: l' =>
      match raised e with
      | None => unwinds l' out
      | Some x =>
          match body_of e with
          | None => l' = [] /\ out = Some x
          | Some h =>
              exists c,
                l' = [c] /\ linked c = false /\ exit_of c = Some h /\
                out = Some (match raised c with Some y => y | None => x end)
          end
      end
  end.

(** What a run of one part of [on_reset] leaves: a log of registered
    calls that halts at the first failure and, if the part returned,
    holds no failure. *)
Definition clean {St X} (r : ran St (exn + X)) : Prop :=
  halts (log r) (thrown (outcome r)) /\
  forallb linked (log r) = true /\
  (thrown (outcome r) = None -> pick failure (log r) = []).

Definition is_stream_open (e : entry) : bool :=
  match call e with runs_stream _ _ => true | _ => false end.

(** A call that went through [link_future], or is not a remote call. *)
Definition registered (e : entry) : bool :=
  linked e || negb (is_remote e).

(** What every handler leaves: a log that unwinds at the first exception
    and in which every remote call is registered, but for the opening of
    the run stream where the handler opens one. *)
Definition well_behaved {St X} (streams : bool) (r : ran St (exn + X)) : Prop :=
  unwinds (log r) (thrown (outcome r)) /\
  forallb (fun e => registered e || (streams && is_stream_open e)) (log r) = true.

(** The handler of a text message is the one that opens a run stream. *)
Definition opens_stream (m : message) : bool :=
  match m with AText _ => true | _ => false end.

(** [ceil(n / d)] *)
Definition ceil_div (n d : nat) : nat := (n + d - 1) / d.

(* ===================================================================== *)
(** * A model of the environment *)

(** Modelled from the spec: the vendor service (one thread with its
    messages and tool resources, a file store, vector stores), the local
    file system and the cancellation token, none of which is code of the
    notebook.  The list call answers pages of [page_size] messages with a
    next-page flag, cursor-based; the delete call removes the message it
    names and reports it deleted; [cancel_at] counts the awaits that
    complete before the token is cancelled. *)
Record world : Type := {
  files : dict (list byte);               (* local files by path *)
  opened : list (list byte);              (* contents behind the handles *)
  thread_messages : list Message.t;       (* oldest first *)
  thread_tool_resources : option ToolResources.t;
  file_store : list (string * list byte); (* uploaded, in order *)
  vector_stores : dict (list (string * list byte));
  counter : nat;                          (* source of fresh identifiers *)
  page_size : nat;
  answer : list MessageContent;           (* what a run makes the assistant say *)
  cancel_at : option nat                  (* awaits left before the token is cancelled *)
}.

Definition fresh_id (prefix : string) (n : nat) : string :=
  String.append prefix (NilEmpty.string_of_uint (Nat.to_uint n)).

(** The thread in the order a list call walks it: newest first unless
    ["asc"] is asked for. *)
Definition ordered (order : option string) (l : list Message.t) : list Message.t :=
  match order with
  | Some o => if String.eqb o "asc" then l else rev l
  | None => rev l
  end.

(** The messages that follow the cursor. *)
Fixpoint after_id (a : string) (l : list Message.t) : list Message.t :=
  match l with
  | [] => []
  | m :: l' => if String.eqb (Message.id m) a then l' else after_id a l'
  end.

Definition list_page (w : world) (order : option string) (limit : option nat)
           (after : option string) : Page.t :=
  let l := ordered order (thread_messages w) in
  let l := match after with Some a => after_id a l | None => l end in
  let n := match limit with Some n => n | None => page_size w end in
  Page.mk (firstn n l) (negb (Nat.leb (List.length l) n)).

Definition has_id (i : string) (m : Message.t) : bool :=
  String.eqb (Message.id m) i.

Definition set_messages (w : world) (l : list Message.t) : world :=
  {| files := files w; opened := opened w; thread_messages := l;
     thread_tool_resources := thread_tool_resources w;
     file_store := file_store w; vector_stores := vector_stores w;
     counter := counter w; page_size := page_size w; answer := answer w;
     cancel_at := cancel_at w |}.

Definition set_opened (w : world) (l : list (list byte)) : world :=
  {| files := files w; opened := l; thread_messages := thread_messages w;
     thread_tool_resources := thread_tool_resources w;
     file_store := file_store w; vector_stores := vector_stores w;
     counter := counter w; page_size := page_size w; answer := answer w;
     cancel_at := cancel_at w |}.

Definition set_tool_resources (w : world) (r : option ToolResources.t) : world :=
  {| files := files w; opened := opened w; thread_messages := thread_messages w;
     thread_tool_resources := r;
     file_store := file_store w; vector_stores := vector_stores w;
     counter := counter w; page_size := page_size w; answer := answer w;
     cancel_at := cancel_at w |}.

Definition set_file_store (w : world) (l : list (string * list byte)) : world :=
  {| files := files w; opened := opened w; thread_messages := thread_messages w;
     thread_tool_resources := thread_tool_resources w;
     file_store := l; vector_stores := vector_stores w;
     counter := counter w; page_size := page_size w; answer := answer w;
     cancel_at := cancel_at w |}.

Definition set_vector_stores (w : world) (d : dict (list (string * list byte))) : world :=
  {| files := files w; opened := opened w; thread_messages := thread_messages w;
     thread_tool_resources := thread_tool_resources w;
     file_store := file_store w; vector_stores := d;
     counter := counter w; page_size := page_size w; answer := answer w;
     cancel_at := cancel_at w |}.

Definition set_counter (w : world) (n : nat) : world :=
  {| files := files w; opened := opened w; thread_messages := thread_messages w;
     thread_tool_resources := thread_tool_resources w;
     file_store := file_store w; vector_stores := vector_stores w;
     counter := n; page_size := page_size w; answer := answer w;
     cancel_at := cancel_at w |}.

Definition set_cancel_at (w : world) (c : option nat) : world :=
  {| files := files w; opened := opened w; thread_messages := thread_messages w;
     thread_tool_resources := thread_tool_resources w;
     file_store := file_store w; vector_stores := vector_stores w;
     counter := counter w; page_size := page_size w; answer := answer w;
     cancel_at := c |}.

(** What the service does with one operation. *)
Definition perform {X} (o : op X) (w : world) : world * (exn + X) :=
  match o in op X return world * (exn + X) with
  | messages_create _ content role _ =>
      let m := Message.mk (fresh_id "msg_" (counter w)) role
                          [TextContentBlock (Text.mk content)] in
      (set_counter (set_messages w (thread_messages w ++ [m])) (S (counter w)),
       inr m)
  | runs_stream _ _ => (set_counter w (S (counter w)), inr (counter w))
  | stream_exit _ => (w, inr tt)
  | until_done _ =>
      let m := Message.mk (fresh_id "msg_" (counter w)) "assistant" (answer w) in
      (set_counter (set_messages w (thread_messages w ++ [m])) (S (counter w)),
       inr tt)
  | messages_list _ order limit after => (w, inr (list_page w order limit after))
  | messages_delete i _ =>
      if existsb (has_id i) (thread_messages w)
      then (set_messages w (filter (fun m => negb (has_id i m)) (thread_messages w)),
            inr (MessageDeleted.mk i true))
      else (w, inl (APIError "No message found"))
  | aiofiles_open path _ =>
      match get path (files w) with
      | Some c => (set_opened w (opened w ++ [c]), inr (List.length (opened w)))
      | None => (w, inl (OSError "No such file or directory"))
      end
  | file_exit _ => (w, inr tt)
  | read f => (w, inr (nth f (opened w) []))
  | files_create (name, c) _ =>
      (set_file_store w (file_store w ++ [(name, c)]),
       inr (FileObject.mk (fresh_id "file-" (List.length (file_store w))) name))
  | threads_retrieve i => (w, inr (Thread.mk i (thread_tool_resources w)))
  | threads_update i d =>
      let old := match thread_tool_resources w with
                 | Some r => r
                 | None => ToolResources.default
                 end in
      let new :=
        match get "code_interpreter" d with
        | Some c =>
            ToolResources.mk
              (Some (ToolResourcesCodeInterpreter.mk (get "file_ids" c)))
              (ToolResources.file_search old)
        | None => old
        end in
      (set_tool_resources w (Some new), inr (Thread.mk i (Some new)))
  | upload_and_poll v fs =>
      let old := match get v (vector_stores w) with Some l => l | None => [] end in
      (set_vector_stores w ((v, old ++ fs) :: vector_stores w),
       inr (VectorStoreFileBatch.mk (fresh_id "vsfb_" (List.length old)) "completed"))
  end.

(** The token: cancelled once [cancel_at] has counted down to zero. *)
Definition tick (w : world) : world :=
  match cancel_at w with
  | Some (S n) => set_cancel_at w (Some n)
  | _ => w
  end.

Definition cancelled (w : world) : bool :=
  match cancel_at w with Some 0 => true | _ => false end.

(** The environment made of the model: a registered future is aborted
    when the token is cancelled, a direct await is not. *)
Definition vendor (X : Type) (e : awaitE X) (w : world) : world * X :=
  match e in awaitE X return world * X with
  | Linked o =>
      if cancelled w then (w, inl CancelledError)
      else let (w', r) := perform o w in (tick w', r)
  | Direct o => let (w', r) := perform o w in (tick w', r)
  end.

(** The same environment with a service that answers every delete with
    [deleted = False] and deletes nothing. *)
Definition refusing (X : Type) (e : awaitE X) (w : world) : world * X :=
  match e in awaitE X return world * X with
  | Linked o =>
      match o in op Y return world * (exn + Y) with
      | messages_delete i _ => (w, inr (MessageDeleted.mk i false))
      | o' => vendor (Linked o') w
      end
  | Direct o => vendor (Direct o) w
  end.



(* ===================================================================== *)
(** * More ways to read a log *)

(** The arguments of a call that creates a message. *)
Definition create_call (e : entry) : option (string * string * string * dict string) :=
  match call e with
  | messages_create t c r m => Some (t, c, r, m)
  | _ => None
  end.

(** The arguments of a list call. *)
Definition list_call (e : entry)
  : option (string * option string * option nat * option string) :=
  match call e with
  | messages_list t o l a => Some (t, o, l, a)
  | _ => None
  end.

(** The handle a successful [__aenter__] of the run stream answered with,
    and the handle an [__aexit__] of it names. *)
Definition opened_stream (e : entry) : option stream :=
  match call e in op X return (exn + X) -> option stream with
  | runs_stream _ _ => fun r =>
      match r with inr s => Some s | inl _ => None end
  | _ => fun _ => None
  end (reply e).

Definition exited_stream (e : entry) : option stream :=
  match call e with stream_exit s => Some s | _ => None end.

(** The same for local files. *)
Definition opened_file (e : entry) : option file :=
  match call e in op X return (exn + X) -> option file with
  | aiofiles_open _ _ => fun r =>
      match r with inr f => Some f | inl _ => None end
  | _ => fun _ => None
  end (reply e).

Definition exited_file (e : entry) : option file :=
  match call e with file_exit f => Some f | _ => None end.

(** The ids of the messages of a page. *)
Definition page_ids (p : Page.t) : list string :=
  map Message.id (Page.data p).

(** The ids the pages answered in a log hold, in order. *)
Definition collected (l : list entry) : list string :=
  List.concat (map page_ids (pick listed l)).

(** [l[-1]] when there is one. *)
Definition last_of (l : list string) : option string :=
  match l with
  | [] => None
  | _ :: _ => Some (last l "")
  end.

(** An await answered by the cancellation error. *)
Definition aborted (e : entry) : bool :=
  match raised e with
  | Some CancelledError => true
  | _ => false
  end.



(* ===================================================================== *)
(** * More environments *)


(** The model with a service whose every page is the first message of
    the thread again, flagged as having a next page. *)
Definition endless (X : Type) (e : awaitE X) (w : world) : world * X :=
  match e in awaitE X return world * X with
  | Linked o =>
      match o in op Y return world * (exn + Y) with
      | messages_list _ _ _ _ => (w, inr (Page.mk (firstn 1 (thread_messages w)) true))
      | o' => vendor (Linked o') w
      end
  | Direct o => vendor (Direct o) w
  end.

(** The model with a thread that reads as empty: every page is empty and
    the last. *)
Definition emptied (X : Type) (e : awaitE X) (w : world) : world * X :=
  match e in awaitE X return world * X with
  | Linked o =>
      match o in op Y return world * (exn + Y) with
      | messages_list _ _ _ _ => (w, inr (Page.mk [] false))
      | o' => vendor (Linked o') w
      end
  | Direct o => vendor (Direct o) w
  end.

(** Modelled from the spec: the cancellation token of the message
    context, over any environment.  The token is cancelled once [n]
    awaits have completed; from then on every registered future is
    aborted with the cancellation error, the operation not performed,
    while a direct await is answered by the environment as before. *)
Definition with_token {St} (env : forall X, awaitE X -> St -> St * X)
           (X : Type) (e : awaitE X) (ns : nat * St) : (nat * St) * X :=
  match e in awaitE X return St * X -> (nat * St) * X with
  | Linked o => fun answer =>
      match fst ns with
      | 0 => ((0, snd ns), inl CancelledError)
      | S n => ((n, fst answer), snd answer)
      end
  | Direct o => fun answer => ((pred (fst ns), fst answer), snd answer)
  end (env X e (snd ns)).

(* ===================================================================== *)
(** * [str.replace] *)

(** A [string] stands for a Python [str] character by character: one
    [ascii] is one code point, so the texts modelled are those whose code
    points fit one byte; a text with wider code points is outside the
    model, and is not to be read as its encoding. *)

(** [s.replace("", new)]: [new] before every character and at the end. *)
Fixpoint interleave (new s : string) : string :=
  match s with
  | EmptyString => new
  | String c s' => String.append new (String c (interleave new s'))
  end.

(** [s.replace(old, new)] for a non-empty [old], reading [s] from the
    left; [skip] characters of an occurrence just replaced are still to
    be passed over. *)
Fixpoint replace_from (old new : string) (skip : nat) (s : string) : string :=
  match s with
  | EmptyString => EmptyString
  | String c s' =>
      match skip with
      | S k => replace_from old new k s'
      | 0 =>
          if String.prefix old s
          then String.append new (replace_from old new (String.length old - 1) s')
          else String c (replace_from old new 0 s')
      end
  end.

Definition replace (old new s : string) : string :=
  match old with
  | EmptyString => interleave new s
  | String _ _ => replace_from old new 0 s
  end.

(** [str(n)] *)
Definition str (n : nat) : string := NilEmpty.string_of_uint (Nat.to_uint n).

Definition newline : string := String "010"%char EmptyString.

(** ["\n".join(l)] *)
Definition join_lines (l : list string) : string := String.concat newline l.

(* ===================================================================== *)
(** * The event handler of the run stream *)

(** What the stream hands to the callbacks; only the fields they read. *)
Module Stream.

Module FileCitation.
Record t : Type := mk { file_id : string }.
End FileCitation.

(** A file citation annotation has the attribute [file_citation], a file
    path annotation has not. *)
Module Annotation.
Record t : Type := mk { text : string; file_citation : option FileCitation.t }.
End Annotation.

Module Text.
Record t : Type := mk { value : string; annotations : list Annotation.t }.
End Text.

Module TextDelta.
Record t : Type := mk { value : option string }.
End TextDelta.

Inductive MessageContent : Type :=
| TextContentBlock (text : Text.t)
| ImageFileContentBlock (file_id : string)
| ImageURLContentBlock (url : string)
| RefusalContentBlock (refusal : string).

Definition type (content : MessageContent) : string :=
  match content with
  | TextContentBlock _ => "text"
  | ImageFileContentBlock _ => "image_file"
  | ImageURLContentBlock _ => "image_url"
  | RefusalContentBlock _ => "refusal"
  end.

Definition text (content : MessageContent) : option Text.t :=
  match content with
  | TextContentBlock t => Some t
  | _ => None
  end.

Module Message.
Record t : Type := mk { content : list MessageContent }.
End Message.

(** A tool call of a run step. *)
Inductive ToolCall : Type :=
| CodeInterpreterToolCall (input : string)
| FileSearchToolCall
| FunctionToolCall (name : string).


Inductive StepDetails : Type :=
| MessageCreationStepDetails (message_id : string)
| ToolCallsStepDetails (tool_calls : list ToolCall).


(** [details.tool_calls], an attribute of tool-call details only. *)
Definition tool_calls (details : StepDetails) : list ToolCall :=
  match details with
  | ToolCallsStepDetails l => l
  | MessageCreationStepDetails _ => []
  end.

Module RunStep.
Record t : Type := mk { step_details : StepDetails }.
End RunStep.

(** The increments of the same. *)
Module CodeInterpreterDelta.
Record t : Type := mk { input : option string }.
End CodeInterpreterDelta.

Inductive ToolCallDelta : Type :=
| CodeInterpreterToolCallDelta (code_interpreter : option CodeInterpreterDelta.t)
| FileSearchToolCallDelta
| FunctionToolCallDelta.

Definition delta_type (tool : ToolCallDelta) : string :=
  match tool with
  | CodeInterpreterToolCallDelta _ => "code_interpreter"
  | FileSearchToolCallDelta => "file_search"
  | FunctionToolCallDelta => "function"
  end.

(** [tool.code_interpreter], an attribute of code-interpreter deltas. *)
Definition code_interpreter (tool : ToolCallDelta) : option CodeInterpreterDelta.t :=
  match tool with
  | CodeInterpreterToolCallDelta c => c
  | _ => None
  end.

Inductive StepDetailsDelta : Type :=
| RunStepDeltaMessageDelta
| ToolCallDeltaObject (tool_calls : option (list ToolCallDelta)).

Definition delta_details_type (details : StepDetailsDelta) : string :=
  match details with
  | RunStepDeltaMessageDelta => "message_creation"
  | ToolCallDeltaObject _ => "tool_calls"
  end.

Definition delta_tool_calls (details : StepDetailsDelta) : option (list ToolCallDelta) :=
  match details with
  | ToolCallDeltaObject l => l
  | RunStepDeltaMessageDelta => None
  end.

Module RunStepDelta.
Record t : Type := mk { step_details : option StepDetailsDelta }.
End RunStepDelta.

End Stream.

Module EventHandler.

Import Stream.

(** [print(x, end=end_)] on a standard output kept as the text written
    so far. *)
Definition print (x end_ : string) (stdout : string) : string :=
  String.append stdout (String.append x end_).

Definition on_text_delta (delta : TextDelta.t) (stdout : string) : string :=
  print (match TextDelta.value delta with Some v => v | None => "None" end)
        "" stdout.





(** [tool.code_interpreter and tool.code_interpreter.input], when it is
    true: the input to print. *)
Definition input_to_print (tool : ToolCallDelta) : option string :=
  match code_interpreter tool with
  | Some c =>
      match CodeInterpreterDelta.input c with
      | Some (String a i) => Some (String a i)
      | Some EmptyString | None => None
      end
  | None => None
  end.

Definition on_run_step_delta (delta : RunStepDelta.t) (stdout : string) : string :=
  match RunStepDelta.step_details delta with
  | Some details =>
      if String.eqb (delta_details_type details) "tool_calls"
      then fold_left (fun out tool =>
                        if String.eqb (delta_type tool) "code_interpreter"
                        then match input_to_print tool with
                             | Some i => print i "" out
                             | None => out
                             end
                        else out)
                     (match delta_tool_calls details with Some l => l | None => [] end)
                     stdout
      else stdout
  | None => stdout
  end.

(** [f"{'-'*80}\nAssistant:\n"] *)
Definition on_message_created (message : Message.t) (stdout : string) : string :=
  print (String.append (String.concat "" (repeat "-" 80))
           (String.append newline (String.append "Assistant:" newline)))
        newline stdout.

(** [f"[{index}]"] *)
Definition marker (index : nat) : string :=
  String.append "[" (String.append (str index) "]").

(** The state of the loop of [on_message_done]: the file service, the
    value of the text, the citations so far, and, beside them, the file
    ids asked for and the exception that ended the loop, if one did. *)
Record citing (St : Type) : Type := Citing {
  env_now : St;
  value_now : string;
  citations_now : list string;
  asked_now : list string;
  failed : option exn
}.

(** What [on_message_done] leaves. *)
Record done (St : Type) : Type := Done {
  env_after : St;
  stdout_after : string;
  message_after : Message.t;
  asked : list string;
  raised_by : option exn
}.

Section OnMessageDone.

Context {St : Type}.

(** [AsyncClient().files.retrieve(file_id)], awaited directly. *)
Variable files_retrieve : string -> St -> St * (exn + FileObject.t).

(** [for index, annotation in enumerate(annotations)], from [index] on. *)
Fixpoint for_annotations (index : nat) (annotations : list Annotation.t)
         (c : citing St) : citing St :=
  match annotations with
  | [] => c
  | annotation :: rest =>
      let value := replace (Annotation.text annotation) (marker index)
                           (value_now c) in
      match Annotation.file_citation annotation with
      | Some file_citation =>
          let (s', answer) :=
            files_retrieve (FileCitation.file_id file_citation) (env_now c) in
          let asked := asked_now c ++ [FileCitation.file_id file_citation] in
          match answer with
          | inl e => Citing s' value (citations_now c) asked (Some e)
          | inr cited_file =>
              for_annotations (S index) rest
                (Citing s' value
                   (citations_now c ++
                    [String.append (marker index)
                       (String.append " " (FileObject.filename cited_file))])
                   asked None)
          end
      | None =>
          for_annotations (S index) rest
            (Citing (env_now c) value (citations_now c) (asked_now c) None)
      end
  end.

(** Print a citation to the file searched.  The text of the first
    content part is rewritten in place, so the message is handed back. *)
Definition on_message_done (message : Message.t) (stdout : string) (s : St)
  : done St :=
  match Message.content message with
  | [] => Done s stdout message [] None
  | content :: others =>
      if negb (String.eqb (type content) "text")
      then Done s stdout message [] None
      else
        match text content with
        | None => Done s stdout message [] (Some AttributeError)
        | Some text_content =>
            let c := for_annotations 0 (Text.annotations text_content)
                       (Citing s (Text.value text_content) [] [] None) in
            let message' :=
              Message.mk (TextContentBlock
                            (Text.mk (value_now c) (Text.annotations text_content))
                          :: others) in
            match failed c with
            | Some e => Done (env_now c) stdout message' (asked_now c) (Some e)
            | None =>
                Done (env_now c)
                     (match citations_now c with
                      | [] => stdout
                      | _ :: _ => print (join_lines (citations_now c)) newline stdout
                      end)
                     message' (asked_now c) None
            end
        end
  end.

End OnMessageDone.


(** The annotations of the first content part, when it is a text. *)
Definition first_annotations (message : Message.t) : list Annotation.t :=
  match Message.content message with
  | TextContentBlock t :: _ => Text.annotations t
  | _ => []
  end.

End EventHandler.
(* ===================================================================== *)
(** * A concrete agent, messages and worlds *)

Definition assistant : OpenAIAssistantAgent :=
  {| id := AgentId.mk "assistant" "default";
     _description := "OpenAI Assistant Agent";
     _assistant_id := "asst_1";
     _thread_id := "thread_1" |}.

Definition wages : list byte := [x6e; x61; x6d; x65; x2c; x70; x61; x79; x0a]%list.

Definition disk : dict (list byte) := [("data/seattle_city_wages.csv", wages)].

Definition a_world (msgs : list Message.t) (resources : option ToolResources.t)
           (cancel : option nat) : world :=
  {| files := disk; opened := []; thread_messages := msgs;
     thread_tool_resources := resources; file_store := []; vector_stores := [];
     counter := 0; page_size := 2;
     answer := [ImageFileContentBlock "file-plot"; TextContentBlock (Text.mk "Hello!");
                TextContentBlock (Text.mk "Bye.")];
     cancel_at := cancel |}.

(** The same world with an assistant that answers with an image alone. *)
Definition a_world_of_images : world :=
  {| files := disk; opened := []; thread_messages := [];
     thread_tool_resources := None; file_store := []; vector_stores := [];
     counter := 0; page_size := 2;
     answer := [ImageFileContentBlock "file-plot"];
     cancel_at := None |}.

Definition with_file_ids (ids : list string) : option ToolResources.t :=
  Some (ToolResources.mk (Some (ToolResourcesCodeInterpreter.mk (Some ids))) None).

(** The thread as the notebook creates it: a vector store for file search
    and no code-interpreter entry. *)
Definition file_search_only : option ToolResources.t :=
  Some (ToolResources.mk None
          (Some (ToolResourcesFileSearch.mk (Some ["vs_1"])))).

Definition upload_wages : UploadForCodeInterpreter.t :=
  UploadForCodeInterpreter.mk "data/seattle_city_wages.csv".

Definition index_wages : UploadForFileSearch.t :=
  UploadForFileSearch.mk "data/seattle_city_wages.csv" "vs_1".

Definition a_message (i : string) : Message.t :=
  Message.mk i "user" [TextContentBlock (Text.mk "hi")].

(** A thread of five messages, listed two to a page. *)
Definition five_messages : world :=
  a_world [a_message "msg_a"; a_message "msg_b"; a_message "msg_c";
           a_message "msg_d"; a_message "msg_e"] None None.

(** A file service that knows every file, and a message that cites two
    files and names a path in between. *)
Definition shelf (id : string) : FileObject.t :=
  FileObject.mk id (String.append id ".pdf").

Definition cited_message : Stream.Message.t :=
  Stream.Message.mk
    [Stream.TextContentBlock
       (Stream.Text.mk "signed in 1919 [a], see [b] and [c]"
          [Stream.Annotation.mk "[a]" (Some (Stream.FileCitation.mk "file-1"));
           Stream.Annotation.mk "[b]" None;
           Stream.Annotation.mk "[c]" (Some (Stream.FileCitation.mk "file-3"))])].

(** A message whose annotation names a text that is not in it. *)
Definition plain_message : Stream.Message.t :=
  Stream.Message.mk
    [Stream.TextContentBlock
       (Stream.Text.mk "aaa" [Stream.Annotation.mk "b" None])].

(* ===================================================================== *)
(** * Equations of the runner *)

Section RunFacts.

Context {St : Type}.
Variable env : forall X, awaitE X -> St -> St * X.

Lemma run_unfold {R} fuel (t : itree awaitE R) s :
  run env fuel t s =
  match observe t with
  | RetF r => Some (Ran fuel s [] r)
  | TauF t' =>
      match fuel with
      | 0 => None
      | S fuel' => run env fuel' t' s
      end
  | VisF e k =>
      match fuel with
      | 0 => None
      | S fuel' =>
          let (s', x) := env e s in
          match run env fuel' (k x) s' with
          | Some r => Some (Ran (fuel_left r) (final r)
                                (record e x :: log r) (outcome r))
          | None => None
          end
      end
  end.
Proof. destruct fuel; reflexivity. Qed.

Lemma run_Ret {R} fuel (r : R) s :
  run env fuel (Ret r) s = Some (Ran fuel s [] r).
Proof. rewrite run_unfold. reflexivity. Qed.

Lemma run_Tau {R} fuel (t : itree awaitE R) s :
  run env fuel (Tau t) s =
  match fuel with 0 => None | S fuel' => run env fuel' t s end.
Proof. rewrite run_unfold. reflexivity. Qed.

Lemma run_trigger {X} fuel (e : awaitE X) s :
  run env fuel (ITree.trigger e) s =
  match fuel with
  | 0 => None
  | S fuel' => let (s', x) := env e s in
               Some (Ran fuel' s' [record e x] x)
  end.
Proof.
  rewrite run_unfold. cbn. destruct fuel as [|fuel']; [reflexivity|].
  destruct (env e s) as [s' x]. rewrite run_Ret. reflexivity.
Qed.

Lemma run_bind {A B} fuel (t : itree awaitE A) (k : A -> itree awaitE B) s :
  run env fuel (ITree.bind t k) s =
  and_then (run env fuel t s) (fun fuel' s' a => run env fuel' (k a) s').
Proof.
  assert (ret_case : forall n r s,
    match observe (k r) with
    | RetF b => Some (Ran n s [] b)
    | TauF t' => match n with 0 => None | S fuel' => run env fuel' t' s end
    | VisF e h =>
        match n with
        | 0 => None
        | S fuel' =>
            let (s', x) := env e s in
            match run env fuel' (h x) s' with
            | Some r => Some (Ran (fuel_left r) (final r)
                                  (record e x :: log r) (outcome r))
            | None => None
            end
        end
    end = and_then (Some (Ran n s [] r))
                   (fun fuel' s' a => run env fuel' (k a) s')).
  { intros n r s0. rewrite <- run_unfold. cbn.
    destruct (run env n (k r) s0) as [[f' s' l' b]|]; reflexivity. }
  revert t s. induction fuel as [|fuel IH]; intros t s.
  - rewrite (run_unfold 0 (ITree.bind t k)), (run_unfold 0 t), observe_bind.
    destruct (observe t) as [r|t'|X e h]; [apply (ret_case 0)|reflexivity..].
  - rewrite (run_unfold (S fuel) (ITree.bind t k)), (run_unfold (S fuel) t),
      observe_bind.
    destruct (observe t) as [r|t'|X e h]; [apply (ret_case (S fuel))|..]; cbn.
    + apply IH.
    + destruct (env e s) as [s' x]. rewrite IH.
      destruct (run env fuel (h x) s') as [[f1 s1 l1 a]|]; cbn; [|reflexivity].
      destruct (run env f1 (k a) s1) as [[f2 s2 l2 b]|]; reflexivity.
Qed.

Lemma run_iter {I R} fuel (step : I -> itree awaitE (I + R)) i s :
  run env fuel (ITree.iter step i) s =
  and_then (run env fuel (step i) s) (fun fuel' s' lr =>
    match lr with
    | inl i' =>
        match fuel' with
        | 0 => None
        | S fuel'' => run env fuel'' (ITree.iter step i') s'
        end
    | inr r => Some (Ran fuel' s' [] r)
    end).
Proof.
  rewrite run_unfold.
  rewrite (observing_observe (unfold_aloop_ step i)).
  rewrite <- run_unfold, run_bind.
  destruct (run env fuel (step i) s) as [[f1 s1 l1 [i'|r]]|]; cbn;
    [rewrite run_Tau|rewrite run_Ret|]; reflexivity.
Qed.

(** Fuel is only ever used up, and more of it changes nothing else. *)
Lemma run_fuel_left {R} fuel (t : itree awaitE R) s r :
  run env fuel t s = Some r -> fuel_left r <= fuel.
Proof.
  revert t s r. induction fuel as [|fuel IH]; intros t s r; rewrite run_unfold.
  - destruct (observe t); intros H; inversion H; subst; cbn; lia.
  - destruct (observe t) as [x|t'|X e k].
    + intros H; inversion H; subst; cbn; lia.
    + intros H. apply IH in H. lia.
    + destruct (env e s) as [s' x].
      destruct (run env fuel (k x) s') as [r'|] eqn:E; intros H; inversion H; subst.
      apply IH in E. cbn. lia.
Qed.

Lemma run_more_fuel {R} n fuel (t : itree awaitE R) s r :
  run env fuel t s = Some r ->
  run env (fuel + n) t s =
  Some (Ran (fuel_left r + n) (final r) (log r) (outcome r)).
Proof.
  revert t s r. induction fuel as [|fuel IH]; intros t s r;
    rewrite (run_unfold _ t), (run_unfold (_ + n) t).
  - destruct (observe t); intros H; inversion H; subst; reflexivity.
  - destruct (observe t) as [x|t'|X e k]; cbn.
    + intros H; inversion H; subst; reflexivity.
    + apply IH.
    + destruct (env e s) as [s' x].
      destruct (run env fuel (k x) s') as [r'|] eqn:E; intros H; inversion H; subst.
      rewrite (IH _ _ _ E). reflexivity.
Qed.

(** The same equations for the handler monad. *)

Lemma run_ret {X} fuel (x : X) s :
  run env fuel (ret x) s = Some (Ran fuel s [] (inr x)).
Proof. apply run_Ret. Qed.

Lemma run_raise {X} fuel (e : exn) s :
  run env fuel (@raise X e) s = Some (Ran fuel s [] (inl e)).
Proof. apply run_Ret. Qed.

Lemma run_mbind {X Y} fuel (m : M X) (k : X -> M Y) s :
  run env fuel (bind m k) s =
  and_then (run env fuel m s) (fun fuel' s' r =>
    match r with
    | inl e => Some (Ran fuel' s' [] (inl e))
    | inr x => run env fuel' (k x) s'
    end).
Proof.
  unfold bind. rewrite run_bind.
  destruct (run env fuel m s) as [[f1 s1 l1 [e|x]]|]; cbn;
    [rewrite run_Ret|..]; reflexivity.
Qed.

Lemma run_await {X} fuel (o : op X) s :
  run env fuel (await o) s =
  match fuel with
  | 0 => None
  | S fuel' => let (s', r) := env (Linked o) s in
               Some (Ran fuel' s' [Entry true o r] r)
  end.
Proof. apply run_trigger. Qed.

Lemma run_await_direct {X} fuel (o : op X) s :
  run env fuel (await_direct o) s =
  match fuel with
  | 0 => None
  | S fuel' => let (s', r) := env (Direct o) s in
               Some (Ran fuel' s' [Entry false o r] r)
  end.
Proof. apply run_trigger. Qed.

Lemma run_async_with {H X} fuel (enter : op H) (exit : H -> op unit)
      (body : H -> M X) s :
  run env fuel (async_with enter exit body) s =
  and_then (run env fuel (await_direct enter) s) (fun f1 s1 r =>
    match r with
    | inl e => Some (Ran f1 s1 [] (inl e))
    | inr h =>
        and_then (run env f1 (body h) s1) (fun f2 s2 outcome =>
        and_then (run env f2 (await_direct (exit h)) s2) (fun f3 s3 closed =>
          match closed with
          | inl e => Some (Ran f3 s3 [] (inl e))
          | inr _ => Some (Ran f3 s3 [] outcome)
          end))
    end).
Proof.
  unfold async_with. rewrite run_mbind.
  destruct (run env fuel (await_direct enter) s) as [[f1 s1 l1 [e|h]]|]; cbn;
    try reflexivity.
  rewrite run_bind.
  destruct (run env f1 (body h) s1) as [[f2 s2 l2 out]|]; cbn; try reflexivity.
  rewrite run_bind.
  destruct (run env f2 (await_direct (exit h)) s2) as [[f3 s3 l3 [e|u]]|]; cbn;
    try rewrite run_Ret; reflexivity.
Qed.

Lemma run_while_true {I X} fuel (body : I -> M (I + X)) i s :
  run env fuel (while_true body i) s =
  and_then (run env fuel (body i) s) (fun fuel' s' r =>
    match r with
    | inl e => Some (Ran fuel' s' [] (inl e))
    | inr (inl i') =>
        match fuel' with
        | 0 => None
        | S fuel'' => run env fuel'' (while_true body i') s'
        end
    | inr (inr x) => Some (Ran fuel' s' [] (inr x))
    end).
Proof.
  unfold while_true. rewrite run_iter, run_bind.
  destruct (run env fuel (body i) s) as [[f1 s1 l1 [e|[i'|x]]]|]; cbn;
    try reflexivity; rewrite run_Ret; cbn; rewrite ?app_nil_r; reflexivity.
Qed.

End RunFacts.
(* ===================================================================== *)
(** * Lists *)

Lemma find_filter {A} (f : A -> bool) l : find f l = hd_error (filter f l).
Proof.
  induction l as [|a l IH]; cbn; [reflexivity|].
  destruct (f a); [reflexivity|exact IH].
Qed.

Lemma filter_head {A} (f : A -> bool) l a l' :
  filter f l = a :: l' -> In a l.
Proof.
  intros H. assert (Hin : In a (filter f l)) by (rewrite H; now left).
  apply filter_In in Hin. tauto.
Qed.

Lemma filter_head_true {A} (f : A -> bool) l a l' :
  filter f l = a :: l' -> f a = true.
Proof.
  intros H. assert (Hin : In a (filter f l)) by (rewrite H; now left).
  apply filter_In in Hin. tauto.
Qed.

Lemma no_text_part (l : list MessageContent) :
  filter (fun content => String.eqb (type content) "text") l = [] ->
  forall c, In c l -> type c <> "text".
Proof.
  intros H c Hin Htype.
  assert (Hc : In c (filter (fun content => String.eqb (type content) "text") l)).
  { apply filter_In. split; [exact Hin|]. apply String.eqb_eq. exact Htype. }
  rewrite H in Hc. exact Hc.
Qed.


(* ===================================================================== *)
(** * Stepping through a run *)

Ltac run_step :=
  first [ rewrite run_mbind | rewrite run_async_with | rewrite run_await
        | rewrite run_await_direct | rewrite run_ret | rewrite run_raise ].

Ltac run_case :=
  match goal with
  | |- context [match ?f with 0 => None | S _ => _ end] =>
      is_var f; destruct f as [|f]
  | |- context [let (_, _) := ?env _ ?e ?s in _] =>
      let E := fresh "E" in
      destruct (env _ e s) as [? [?|?]] eqn:E
  end.

Ltac run_simpl :=
  cbn [and_then fuel_left final outcome log app].

Ltac run_through :=
  repeat (run_simpl; first [ run_step | run_case ]); run_simpl.

(** A run that ended: either there was no fuel for it, or its result is
    the one computed. *)
Ltac run_done :=
  let H := fresh "H" in
  intros H; first [ discriminate H | injection H as <- ].

(* ===================================================================== *)
(** * Upload for the code interpreter *)

(** Every way a run of the handler can go: the awaits one after the
    other, each answered by a value or an exception, then the shape of
    the thread the retrieve answered with. *)
Ltac upload_cases :=
  unfold on_upload_for_code_interpreter;
  run_through; try run_done;
  try match goal with
      | |- context [Thread.tool_resources ?t] =>
          destruct t as [? [[[[[[|? ?]|]]|] ?]|]];
          cbn [Thread.tool_resources ToolResources.code_interpreter
               ToolResourcesCodeInterpreter.file_ids ToolResources.default];
          run_through; try run_done
      end.

Section UploadForCodeInterpreterFacts.

Context {St : Type}.
Variable env : forall X, awaitE X -> St -> St * X.
Variable self : OpenAIAssistantAgent.

(** The handler awaits at most six operations. *)
Lemma on_upload_for_code_interpreter_total message fuel s :
  6 <= fuel ->
  run env fuel (on_upload_for_code_interpreter self message) s <> None.
Proof.
  intros Hfuel. do 6 (destruct fuel as [|fuel]; [lia|]). clear Hfuel.
  upload_cases; discriminate.
Qed.

Lemma upload_with_existing_file_ids message fuel s r thread i l :
  run env fuel (on_upload_for_code_interpreter self message) s = Some r ->
  pick retrieved (log r) = [thread] ->
  existing_file_ids thread = Some (Some (i :: l)) ->
  pick written_file_ids (log r) = [i :: l].
Proof.
  upload_cases; cbn; try discriminate;
    intros Ht; injection Ht as <-; cbn; try discriminate;
    intros Hids; injection Hids as <- <-; reflexivity.
Qed.

(** C1: the handler ends, and when the thread it retrieved carries a
    non-empty code-interpreter file id list, the list written by its one
    thread update is that list, unchanged; so the id of the file just
    uploaded is not in the written list, the thread not listing it yet. *)
Theorem upload_keeps_existing_file_ids :
  forall message fuel s,
    6 <= fuel ->
    exists r,
      run env fuel (on_upload_for_code_interpreter self message) s = Some r /\
      forall thread i l,
        pick retrieved (log r) = [thread] ->
        existing_file_ids thread = Some (Some (i :: l)) ->
        pick written_file_ids (log r) = [i :: l] /\
        forall file, In file (pick created (log r)) ->
                     ~ In (FileObject.id file) (i :: l) ->
                     forall ids, In ids (pick written_file_ids (log r)) ->
                                 ~ In (FileObject.id file) ids.
Proof.
  intros message fuel s Hfuel.
  destruct (run env fuel (on_upload_for_code_interpreter self message) s)
    as [r|] eqn:Hrun;
    [|elim (on_upload_for_code_interpreter_total message s Hfuel Hrun)].
  exists r. split; [reflexivity|]. intros thread i l Hthread Hids.
  rewrite (upload_with_existing_file_ids _ _ _ Hrun Hthread Hids).
  split; [reflexivity|].
  intros file _ Hfresh ids [<-|[]]. exact Hfresh.
Qed.

Lemma upload_without_code_interpreter_entry message fuel s r thread :
  run env fuel (on_upload_for_code_interpreter self message) s = Some r ->
  pick retrieved (log r) = [thread] ->
  existing_file_ids thread = None ->
  outcome r = inl AssertionError /\
  pick raised (log r) = [] /\
  pick update_argument (log r) = [].
Proof.
  upload_cases; cbn; try discriminate;
    intros Ht; injection Ht as <-; cbn; try discriminate;
    intros _; repeat split.
Qed.

Lemma upload_with_empty_file_ids message fuel s r thread :
  run env fuel (on_upload_for_code_interpreter self message) s = Some r ->
  pick retrieved (log r) = [thread] ->
  existing_file_ids thread = Some None \/
  existing_file_ids thread = Some (Some []) ->
  exists file,
    pick created (log r) = [file] /\
    pick update_argument (log r) =
      [[("code_interpreter", [("file_ids", [FileObject.id file])])]] /\
    pick written_file_ids (log r) = [[FileObject.id file]] /\
    match pick raised (log r) with
    | [] => outcome r = inr tt
    | e :: _ => outcome r = inl e
    end.
Proof.
  upload_cases; cbn; try discriminate;
    intros Ht; injection Ht as <-; cbn;
    intros [H|H]; try discriminate H; eexists; repeat split.
Qed.

(** C3, as the code has it: the handler ends; when the thread it
    retrieved has no tool resources, or tool resources without a
    code-interpreter entry, it raises its own assertion error after the
    retrieve and issues no thread update; when the entry is there with no
    or an empty file id list, the update is issued with exactly the id of
    the new file, and the handler ends as the update does. *)
Theorem upload_defaults_only_with_code_interpreter_entry :
  forall message fuel s,
    6 <= fuel ->
    exists r,
      run env fuel (on_upload_for_code_interpreter self message) s = Some r /\
      forall thread,
        pick retrieved (log r) = [thread] ->
        (existing_file_ids thread = None ->
         outcome r = inl AssertionError /\
         pick raised (log r) = [] /\
         pick update_argument (log r) = []) /\
        (existing_file_ids thread = Some None \/
         existing_file_ids thread = Some (Some []) ->
         exists file,
           pick created (log r) = [file] /\
           pick update_argument (log r) =
             [[("code_interpreter", [("file_ids", [FileObject.id file])])]] /\
           pick written_file_ids (log r) = [[FileObject.id file]] /\
           match pick raised (log r) with
           | [] => outcome r = inr tt
           | e :: _ => outcome r = inl e
           end).
Proof.
  intros message fuel s Hfuel.
  destruct (run env fuel (on_upload_for_code_interpreter self message) s)
    as [r|] eqn:Hrun;
    [|elim (on_upload_for_code_interpreter_total message s Hfuel Hrun)].
  exists r. split; [reflexivity|]. intros thread Hthread. split.
  - apply (upload_without_code_interpreter_entry _ _ _ Hrun Hthread).
  - apply (upload_with_empty_file_ids _ _ _ Hrun Hthread).
Qed.

End UploadForCodeInterpreterFacts.

Lemma upload_keeps_existing_file_ids_witness :
  exists r,
    run vendor 10 (on_upload_for_code_interpreter assistant upload_wages)
        (a_world [] (with_file_ids ["file-A"; "file-B"]) None) = Some r /\
    pick written_file_ids (log r) = [["file-A"; "file-B"]].
Proof.
  destruct (upload_keeps_existing_file_ids vendor assistant upload_wages
              (a_world [] (with_file_ids ["file-A"; "file-B"]) None)
              (fuel := 10) ltac:(lia)) as (r & Hrun & H).
  exists r. split; [exact Hrun|].
  vm_compute in Hrun. injection Hrun as <-.
  eapply H; vm_compute; reflexivity.
Defined.

(** C2: the thread lists one file already; the upload succeeds, the new
    file gets the id file-0, and the update that ends the handler writes
    the old list, without file-0. *)
Lemma upload_drops_new_file_id :
  exists r,
    run vendor 10 (on_upload_for_code_interpreter assistant upload_wages)
        (a_world [] (with_file_ids ["file-A"]) None) = Some r /\
    outcome r = inr tt /\
    map FileObject.id (pick created (log r)) = ["file-0"] /\
    pick written_file_ids (log r) = [["file-A"]] /\
    thread_tool_resources (final r) = with_file_ids ["file-A"].
Proof.
  eexists. split; [vm_compute; reflexivity|].
  repeat split.
Qed.

(** C3, as stated, fails on a thread without tool resources. *)
Lemma upload_without_tool_resources_aborts :
  ~ (forall r,
       run vendor 10 (on_upload_for_code_interpreter assistant upload_wages)
           (a_world [] None None) = Some r ->
       outcome r = inr tt /\
       pick written_file_ids (log r) =
         [map FileObject.id (pick created (log r))]).
Proof.
  intros H.
  destruct (run vendor 10 (on_upload_for_code_interpreter assistant upload_wages)
                (a_world [] None None)) as [r|] eqn:E; [|vm_compute in E; discriminate E].
  destruct (H r eq_refl) as [Hout _].
  vm_compute in E. injection E as <-. discriminate Hout.
Qed.

Lemma upload_defaults_only_with_code_interpreter_entry_witness :
  exists r,
    run vendor 10 (on_upload_for_code_interpreter assistant upload_wages)
        (a_world [] file_search_only None) = Some r /\
    outcome r = inl AssertionError /\
    pick raised (log r) = [] /\
    pick update_argument (log r) = [].
Proof.
  destruct (upload_defaults_only_with_code_interpreter_entry vendor assistant
              upload_wages (a_world [] file_search_only None)
              (fuel := 10) ltac:(lia)) as (r & Hrun & H).
  exists r. split; [exact Hrun|].
  vm_compute in Hrun. injection Hrun as <-.
  eapply H; vm_compute; reflexivity.
Defined.

(* ===================================================================== *)
(** * The name and the content of an upload *)

Lemma basename_String a p :
  basename (String a p) =
  match rfind "/"%char p with
  | Some _ => basename p
  | None => if Ascii.eqb a "/"%char then p else String a p
  end.
Proof.
  unfold basename. cbn [rfind].
  destruct (rfind "/"%char p) as [i|].
  - rewrite !Nat.add_1_r. reflexivity.
  - destruct (Ascii.eqb a "/"%char); reflexivity.
Qed.

(** The base name is what follows the last separator: the path is a
    directory part, empty or ending in the separator, then the base name,
    which holds no separator. *)
Lemma basename_spec p :
  exists dir,
    p = String.append dir (basename p) /\
    (dir = EmptyString \/ exists d, dir = String.append d "/") /\
    rfind "/"%char (basename p) = None.
Proof.
  induction p as [|a p (dir & Hp & Hdir & Hbase)].
  - exists EmptyString. repeat split. now left.
  - rewrite basename_String. destruct (rfind "/"%char p) as [i|] eqn:Hr.
    + exists (String a dir). cbn [String.append]. rewrite <- Hp.
      repeat split; [|exact Hbase]. right.
      destruct Hdir as [->|[d ->]].
      * cbn in Hp. rewrite <- Hp, Hr in Hbase. discriminate Hbase.
      * exists (String a d). reflexivity.
    + destruct (Ascii.eqb a "/"%char) eqn:Ha.
      * apply Ascii.eqb_eq in Ha. subst a. exists "/"%string.
        repeat split; [|exact Hr]. right. exists EmptyString. reflexivity.
      * exists EmptyString. repeat split; [now left|].
        cbn [rfind]. rewrite Hr, Ha. reflexivity.
Qed.

Section UploadFacts.

Context {St : Type}.
Variable env : forall X, awaitE X -> St -> St * X.
Variable self : OpenAIAssistantAgent.

(** The handler awaits at most four operations. *)
Lemma on_upload_for_file_search_total message fuel s :
  4 <= fuel ->
  run env fuel (on_upload_for_file_search message) s <> None.
Proof.
  intros Hfuel. do 4 (destruct fuel as [|fuel]; [lia|]). clear Hfuel.
  unfold on_upload_for_file_search. run_through; discriminate.
Qed.

(** C7: the handler returns normally only in a run whose last awaited
    operation is the upload-and-poll on the vector store the message
    names, answered by the vendor with the batch it polled to the end;
    no run returns without that answer. *)
Theorem file_search_upload_returns_after_poll :
  forall message fuel s r,
    run env fuel (on_upload_for_file_search message) s = Some r ->
    outcome r = inr tt ->
    exists before content batch,
      log r = before ++
        [Entry true
           (upload_and_poll (UploadForFileSearch.vector_store_id message)
              [(basename (UploadForFileSearch.file_path message), content)])
           (inr batch)] /\
      pick polled before = [] /\
      pick polled (log r) = [UploadForFileSearch.vector_store_id message].
Proof.
  intros message fuel s r.
  unfold on_upload_for_file_search.
  run_through; try run_done; cbn; try discriminate.
  intros _.
  match goal with
  | |- context [Entry false ?o1 ?r1 :: Entry true ?o2 ?r2 :: Entry false ?o3 ?r3 :: _] =>
      exists [Entry false o1 r1; Entry true o2 r2; Entry false o3 r3]
  end.
  do 2 eexists. repeat split.
Qed.

(** C10: each upload handler, given fuel for its awaits, ends; unless the
    opening, the read or the closing of the local file raised, it opened
    the file under the path of the message in binary mode, read it once,
    and sent the vendor exactly one file: the pair of the base name of
    that path and the content the read answered with.  It sends nothing
    when one of the three raised.  The base name is the path without its
    directory part. *)
Theorem uploads_send_basename_and_content :
  (forall message fuel s,
      6 <= fuel ->
      exists r,
        run env fuel (on_upload_for_code_interpreter self message) s = Some r /\
        (pick raised (firstn 3 (log r)) = [] ->
         exists f content closed rest,
           log r = Entry false
                     (aiofiles_open (UploadForCodeInterpreter.file_path message) "rb")
                     (inr f)
                   :: Entry true (read f) (inr content)
                   :: Entry false (file_exit f) (inr closed) :: rest /\
           pick read_content (log r) = [content] /\
           pick uploaded_file (log r) =
             [[(basename (UploadForCodeInterpreter.file_path message), content)]]) /\
        (pick raised (firstn 3 (log r)) <> [] -> pick uploaded_file (log r) = [])) /\
  (forall message fuel s,
      4 <= fuel ->
      exists r,
        run env fuel (on_upload_for_file_search message) s = Some r /\
        (pick raised (firstn 3 (log r)) = [] ->
         exists f content closed rest,
           log r = Entry false
                     (aiofiles_open (UploadForFileSearch.file_path message) "rb")
                     (inr f)
                   :: Entry true (read f) (inr content)
                   :: Entry false (file_exit f) (inr closed) :: rest /\
           pick read_content (log r) = [content] /\
           pick uploaded_file (log r) =
             [[(basename (UploadForFileSearch.file_path message), content)]]) /\
        (pick raised (firstn 3 (log r)) <> [] -> pick uploaded_file (log r) = [])) /\
  (forall p, exists dir,
      p = String.append dir (basename p) /\
      (dir = EmptyString \/ exists d, dir = String.append d "/") /\
      rfind "/"%char (basename p) = None).
Proof.
  split; [|split; [|exact basename_spec]].
  - intros message fuel s Hfuel.
    destruct (run env fuel (on_upload_for_code_interpreter self message) s)
      as [r|] eqn:E;
      [|exfalso; exact (on_upload_for_code_interpreter_total env self message s Hfuel E)].
    exists r. split; [reflexivity|]. clear Hfuel. revert E.
    upload_cases; cbn; (split; [intros H; try discriminate H|intros H; try reflexivity; try (exfalso; apply H; reflexivity)]);
      do 4 eexists; repeat split.
  - intros message fuel s Hfuel.
    destruct (run env fuel (on_upload_for_file_search message) s) as [r|] eqn:E;
      [|exfalso; exact (on_upload_for_file_search_total message s Hfuel E)].
    exists r. split; [reflexivity|]. clear Hfuel. revert E.
    unfold on_upload_for_file_search.
    run_through; try run_done; cbn; (split; [intros H; try discriminate H|intros H; try reflexivity; try (exfalso; apply H; reflexivity)]);
      do 4 eexists; repeat split.
Qed.

End UploadFacts.

Lemma file_search_upload_returns_after_poll_witness :
  exists r,
    run vendor 10 (on_upload_for_file_search index_wages)
        (a_world [] file_search_only None) = Some r /\
    outcome r = inr tt /\
    pick polled (log r) = ["vs_1"] /\
    get "vs_1" (vector_stores (final r)) = Some [("seattle_city_wages.csv", wages)].
Proof.
  eexists. split; [vm_compute; reflexivity|].
  split; [reflexivity|]. split; [|reflexivity].
  destruct (file_search_upload_returns_after_poll vendor index_wages 10
              (a_world [] file_search_only None) eq_refl eq_refl)
    as (before & content & batch & _ & _ & H).
  exact H.
Defined.

Lemma uploads_send_basename_and_content_witness :
  (exists r,
     run vendor 6 (on_upload_for_code_interpreter assistant upload_wages)
         (a_world [] (with_file_ids []) None) = Some r /\
     pick uploaded_file (log r) = [[("seattle_city_wages.csv", wages)]] /\
     file_store (final r) = [("seattle_city_wages.csv", wages)]) /\
  (exists r,
     run vendor 4 (on_upload_for_file_search index_wages)
         (a_world [] file_search_only None) = Some r /\
     pick uploaded_file (log r) = [[("seattle_city_wages.csv", wages)]] /\
     get "vs_1" (vector_stores (final r)) = Some [("seattle_city_wages.csv", wages)]).
Proof.
  split.
  - destruct (proj1 (uploads_send_basename_and_content vendor assistant)
                upload_wages 6 (a_world [] (with_file_ids []) None) (le_n 6))
      as (r & Hrun & Hsent & _).
    exists r. split; [exact Hrun|].
    vm_compute in Hrun. injection Hrun as <-.
    destruct (Hsent eq_refl) as (f & content & closed & rest & _ & Hread & Hup).
    vm_compute in Hread. injection Hread as <-.
    split; [rewrite Hup; reflexivity|reflexivity].
  - destruct (proj1 (proj2 (uploads_send_basename_and_content vendor assistant))
                index_wages 4 (a_world [] file_search_only None) (le_n 4))
      as (r & Hrun & Hsent & _).
    exists r. split; [exact Hrun|].
    vm_compute in Hrun. injection Hrun as <-.
    destruct (Hsent eq_refl) as (f & content & closed & rest & _ & Hread & Hup).
    vm_compute in Hread. injection Hread as <-.
    split; [rewrite Hup; reflexivity|reflexivity].
Defined.

(* ===================================================================== *)
(** * Text messages *)

Ltac message_cases :=
  unfold handle_message; run_through; try run_done;
  try match goal with
      | |- context [Page.data ?p] =>
          destruct p as [[|? ?] ?]; cbn [Page.data]; run_through; try run_done
      end;
  try match goal with
      | |- context [filter ?f ?l] =>
          let F := fresh "F" in
          destruct (filter f l) as [|[] ?] eqn:F;
          cbn [text]; run_through; try run_done
      end.

Section HandleMessageFacts.

Context {St : Type}.
Variable env : forall X, awaitE X -> St -> St * X.
Variable self : OpenAIAssistantAgent.

(** The handler awaits five operations. *)
Lemma handle_message_total message fuel s :
  5 <= fuel -> run env fuel (handle_message self message) s <> None.
Proof.
  intros Hfuel. do 5 (destruct fuel as [|fuel]; [lia|]). clear Hfuel.
  message_cases; discriminate.
Qed.

Lemma handle_message_outcome message fuel s r page m rest :
  run env fuel (handle_message self message) s = Some r ->
  pick listed (log r) = [page] ->
  Page.data page = m :: rest ->
  ((exists e, outcome r = inl e) <->
   (forall c, In c (Message.content m) -> type c <> "text")) /\
  match find (fun content => String.eqb (type content) "text")
             (Message.content m) with
  | Some c =>
      exists t, c = TextContentBlock t /\
                outcome r = inr (TextMessage.mk (Text.value t)
                                   (AgentMetadata.type (metadata self)))
  | None => outcome r = inl (ValueError (Message.content m))
  end.
Proof.
  message_cases; cbn; try discriminate;
    intros Hp; injection Hp as <-; cbn; try discriminate;
    intros Hm; injection Hm as <- <-;
    rewrite find_filter, F; cbn.
  - split; [|reflexivity]. split; [intros _|eexists; reflexivity].
    apply no_text_part. exact F.
  - split; [|eexists; split; reflexivity]. split.
    + intros [e He]. discriminate He.
    + intros Hno. apply filter_head in F. elim (Hno _ F). reflexivity.
  - apply filter_head_true in F. discriminate F.
  - apply filter_head_true in F. discriminate F.
  - apply filter_head_true in F. discriminate F.
Qed.

(** C5: the handler, given fuel for its five awaits, ends.  Unless one of
    the four awaited operations before it raised (the creation of the
    message, the opening of the run stream, the run to its end, the exit
    of the stream), the fifth and last is the list call for the newest
    message of the thread alone; and once that call has answered with a
    newest message, the handler raises if and only if
    none of the content parts of that message is text-typed: it then
    raises the value error, and otherwise returns the value of the first
    text-typed part as content. *)
Theorem handle_message_raises_iff_no_text :
  forall message fuel s,
    5 <= fuel ->
    exists r,
      run env fuel (handle_message self message) s = Some r /\
      (pick raised (firstn 4 (log r)) = [] ->
       exists created stream done closed answer,
         log r =
           [Entry true
              (messages_create (_thread_id self) (TextMessage.content message)
                 "user" [("sender", TextMessage.source message)])
              (inr created);
            Entry false (runs_stream (_thread_id self) (_assistant_id self))
              (inr stream);
            Entry true (until_done stream) (inr done);
            Entry false (stream_exit stream) (inr closed);
            Entry true
              (messages_list (_thread_id self) (Some "desc") (Some 1) None)
              answer]) /\
      forall page m rest,
        pick listed (log r) = [page] ->
        Page.data page = m :: rest ->
        ((exists e, outcome r = inl e) <->
         (forall c, In c (Message.content m) -> type c <> "text")) /\
        match find (fun content => String.eqb (type content) "text")
                   (Message.content m) with
        | Some c =>
            exists t, c = TextContentBlock t /\
                      outcome r = inr (TextMessage.mk (Text.value t)
                                         (AgentMetadata.type (metadata self)))
        | None => outcome r = inl (ValueError (Message.content m))
        end.
Proof.
  intros message fuel s Hfuel.
  destruct (run env fuel (handle_message self message) s) as [r|] eqn:Hrun;
    [|elim (handle_message_total message s Hfuel Hrun)].
  exists r. split; [reflexivity|]. split.
  - clear Hfuel. revert Hrun.
    message_cases; cbn; intros H; try discriminate H;
      do 5 eexists; reflexivity.
  - intros page m rest. apply (handle_message_outcome _ _ _ Hrun).
Qed.

(** C4, as the code has it: the reply carries the type the agent was
    registered under as its source, whatever source the caller gave; the
    two sources are equal exactly when the caller gave that very type. *)
Theorem reply_source_is_agent_type :
  forall message fuel s r reply,
    run env fuel (handle_message self message) s = Some r ->
    outcome r = inr reply ->
    TextMessage.source reply = AgentId.type (id self) /\
    TextMessage.source reply = AgentMetadata.type (metadata self) /\
    (TextMessage.source reply = TextMessage.source message <->
     TextMessage.source message = AgentId.type (id self)).
Proof.
  intros message fuel s r reply.
  message_cases; cbn; try discriminate.
  intros Hr. injection Hr as <-. cbn.
  repeat split; intros H; symmetry; exact H.
Qed.

End HandleMessageFacts.

Lemma handle_message_raises_iff_no_text_witness :
  (exists r,
     run vendor 5 (handle_message assistant (TextMessage.mk "Hello" "user"))
         (a_world [] None None) = Some r /\
     pick list_call (log r) = [("thread_1", Some "desc", Some 1, None)] /\
     outcome r = inr (TextMessage.mk "Hello!" "assistant")) /\
  (exists r,
     run vendor 5 (handle_message assistant (TextMessage.mk "Plot it" "user"))
         a_world_of_images = Some r /\
     pick list_call (log r) = [("thread_1", Some "desc", Some 1, None)] /\
     outcome r = inl (ValueError [ImageFileContentBlock "file-plot"])).
Proof.
  split.
  - destruct (handle_message_raises_iff_no_text vendor assistant
                (TextMessage.mk "Hello" "user") (a_world [] None None)
                (le_n 5)) as (r & Hrun & _ & H).
    exists r. split; [exact Hrun|].
    vm_compute in Hrun. injection Hrun as <-.
    split; [reflexivity|].
    edestruct H as [_ Hfirst]; [vm_compute; reflexivity|reflexivity|].
    cbn in Hfirst. destruct Hfirst as (t & Ht & Hout).
    injection Ht as <-. exact Hout.
  - destruct (handle_message_raises_iff_no_text vendor assistant
                (TextMessage.mk "Plot it" "user") a_world_of_images
                (le_n 5)) as (r & Hrun & _ & H).
    exists r. split; [exact Hrun|].
    vm_compute in Hrun. injection Hrun as <-.
    split; [reflexivity|].
    edestruct H as [_ Hnone]; [vm_compute; reflexivity|reflexivity|].
    exact Hnone.
Defined.

(** C4, as stated, fails when the caller signs with the agent's type. *)
Lemma reply_source_can_equal_caller_source :
  ~ (forall r reply,
       run vendor 10 (handle_message assistant (TextMessage.mk "Hello" "assistant"))
           (a_world [] None None) = Some r ->
       outcome r = inr reply ->
       TextMessage.source reply = AgentId.type (id assistant) /\
       TextMessage.source reply <> "assistant").
Proof.
  intros H.
  destruct (run vendor 10 (handle_message assistant (TextMessage.mk "Hello" "assistant"))
                (a_world [] None None)) as [r|] eqn:E;
    [|vm_compute in E; discriminate E].
  vm_compute in E. injection E as <-.
  destruct (H _ _ eq_refl eq_refl) as [_ Hne]. apply Hne. reflexivity.
Qed.

Lemma reply_source_is_agent_type_witness :
  exists r reply,
    run vendor 10 (handle_message assistant (TextMessage.mk "Hello" "user"))
        (a_world [] None None) = Some r /\
    outcome r = inr reply /\
    TextMessage.source reply = "assistant".
Proof.
  do 2 eexists. split; [vm_compute; reflexivity|]. split; [reflexivity|].
  eapply (reply_source_is_agent_type vendor assistant
            (TextMessage.mk "Hello" "user") 10 (a_world [] None None));
    [vm_compute; reflexivity|reflexivity].
Defined.

(* ===================================================================== *)
(** * Reset, against any environment *)

Lemma pick_app {A} (f : entry -> option A) l1 l2 :
  pick f (l1 ++ l2) = pick f l1 ++ pick f l2.
Proof.
  induction l1 as [|e l1 IH]; cbn; [reflexivity|].
  destruct (f e); cbn; rewrite IH; reflexivity.
Qed.

Lemma halts_app l1 l2 out :
  pick failure l1 = [] -> halts l2 out -> halts (l1 ++ l2) out.
Proof.
  induction l1 as [|e l1 IH]; cbn; [tauto|].
  destruct (failure e); [discriminate|]. exact IH.
Qed.

(** In a log that halts at the first failure, a failing answer is the
    last entry and its exception is the outcome. *)
Lemma halts_split l out before e after x :
  halts l out -> l = before ++ e :: after -> failure e = Some x ->
  after = [] /\ out = Some x.
Proof.
  revert l. induction before as [|b before IH]; intros l Hl ->; cbn in Hl.
  - intros Hx. rewrite Hx in Hl. exact Hl.
  - destruct (failure b).
    + destruct Hl as [Hnil _]. destruct before; discriminate Hnil.
    + apply (IH _ Hl eq_refl).
Qed.

Lemma refused_is_failure e :
  delete_refused e = true -> failure e = Some AssertionError.
Proof.
  destruct e as [lk X c rp]. unfold failure, delete_refused, raised. cbn.
  destruct c; try discriminate. destruct rp as [x|status]; [discriminate|].
  intros ->. reflexivity.
Qed.

Lemma no_failure_no_refusal l e :
  pick failure l = [] -> In e l -> delete_refused e = false.
Proof.
  induction l as [|a l IH]; cbn; [tauto|].
  destruct (failure a) eqn:Ha; [discriminate|].
  intros Hl [->|Hin]; [|exact (IH Hl Hin)].
  destruct (delete_refused e) eqn:Hr; [|reflexivity].
  rewrite (refused_is_failure _ Hr) in Ha. discriminate Ha.
Qed.

Section ResetFacts.

Context {St : Type}.
Variable env : forall X, awaitE X -> St -> St * X.
Variable self : OpenAIAssistantAgent.

Lemma delete_one_clean msg_id fuel s r :
  run env fuel (delete_one self msg_id) s = Some r ->
  clean r /\ pick deleted_id (log r) = [msg_id].
Proof.
  unfold delete_one, assert. run_through; try run_done;
    unfold clean, failure; cbn; try (repeat split; discriminate).
  destruct (MessageDeleted.deleted t) eqn:Hd; run_through; run_done;
    unfold clean, failure; cbn; rewrite Hd; cbn; repeat split; discriminate.
Qed.

Lemma for_each_delete_clean ids :
  forall fuel s r,
    run env fuel (for_each ids (delete_one self)) s = Some r ->
    clean r /\
    (thrown (outcome r) = None -> pick deleted_id (log r) = ids).
Proof.
  induction ids as [|i ids IH]; intros fuel s r; cbn [for_each].
  - run_through. run_done. unfold clean. cbn. repeat split.
  - rewrite run_mbind.
    destruct (run env fuel (delete_one self i) s) as [[f1 s1 l1 [x|[]]]|] eqn:E1;
      cbn; [| |discriminate].
    + run_done. apply delete_one_clean in E1. cbn in *.
      rewrite app_nil_r. split; [tauto|discriminate].
    + destruct (run env f1 (for_each ids (delete_one self)) s1) as [r2|] eqn:E2;
        [|discriminate].
      run_done. apply delete_one_clean in E1. apply IH in E2.
      destruct E1 as [(H1 & L1 & F1) D1], E2 as [(H2 & L2 & F2) D2].
      unfold clean in *. cbn in *. specialize (F1 eq_refl).
      repeat split.
      * apply halts_app; assumption.
      * rewrite forallb_app, L1, L2. reflexivity.
      * intros Hout. rewrite pick_app, F1, (F2 Hout). reflexivity.
      * intros Hout. rewrite pick_app, D1, (D2 Hout). reflexivity.
Qed.

Lemma list_more_clean all_msgs fuel s r :
  run env fuel (list_more self all_msgs) s = Some r ->
  clean r /\ forallb is_list (log r) = true.
Proof.
  unfold list_more.
  destruct all_msgs; run_through; try run_done;
    try (unfold clean, failure; cbn; repeat split; discriminate).
  all: destruct (Page.has_next_page t); cbn [negb]; run_through; run_done;
    unfold clean, failure; cbn; repeat split; discriminate.
Qed.

Lemma while_list_more_clean :
  forall fuel all_msgs s r,
    run env fuel (while_true (list_more self) all_msgs) s = Some r ->
    clean r /\ forallb is_list (log r) = true.
Proof.
  induction fuel as [fuel IH] using lt_wf_ind. intros all_msgs s r.
  rewrite run_while_true.
  destruct (run env fuel (list_more self all_msgs) s)
    as [[f1 s1 l1 [x|[all'|all']]]|] eqn:E1; cbn; [| | |discriminate].
  - run_done. apply list_more_clean in E1. cbn in *.
    rewrite app_nil_r. exact E1.
  - destruct f1 as [|f1]; [discriminate|].
    destruct (run env f1 (while_true (list_more self) all') s1) as [r2|] eqn:E2;
      [|discriminate].
    run_done. pose proof (run_fuel_left _ _ _ _ E1) as Hf. cbn in Hf.
    apply list_more_clean in E1. apply IH in E2; [|lia].
    destruct E1 as [(H1 & L1 & F1) I1], E2 as [(H2 & L2 & F2) I2].
    unfold clean in *. cbn in *. specialize (F1 eq_refl).
    repeat split.
    + apply halts_app; assumption.
    + rewrite forallb_app, L1, L2. reflexivity.
    + intros Hout. rewrite pick_app, F1, (F2 Hout). reflexivity.
    + rewrite forallb_app, I1, I2. reflexivity.
  - run_done. apply list_more_clean in E1. cbn in *.
    rewrite app_nil_r. exact E1.
Qed.

Lemma on_reset_clean message fuel s r :
  run env fuel (on_reset self message) s = Some r -> clean r.
Proof.
  unfold on_reset. rewrite run_mbind.
  destruct (run env fuel (while_true (list_more self) []) s)
    as [[f1 s1 l1 [x|all_msgs]]|] eqn:E1; cbn; [| |discriminate].
  - run_done. apply while_list_more_clean in E1. cbn in *.
    rewrite app_nil_r. tauto.
  - destruct (run env f1 (for_each all_msgs (delete_one self)) s1) as [r2|] eqn:E2;
      [|discriminate].
    run_done. apply while_list_more_clean in E1. apply for_each_delete_clean in E2.
    destruct E1 as [(H1 & L1 & F1) _], E2 as [(H2 & L2 & F2) _].
    unfold clean in *. cbn in *. specialize (F1 eq_refl).
    repeat split.
    + apply halts_app; assumption.
    + rewrite forallb_app, L1, L2. reflexivity.
    + intros Hout. rewrite pick_app, F1, (F2 Hout). reflexivity.
Qed.

Lemma delete_one_round msg_id fuel s r :
  run env fuel (delete_one self msg_id) s = Some r ->
  exists e, log r = [e] /\ is_delete e = true /\ deleted_id e = Some msg_id.
Proof.
  unfold delete_one, assert. run_through; try run_done;
    try (eexists; repeat split; fail).
  destruct (MessageDeleted.deleted t); run_through; run_done;
    eexists; repeat split.
Qed.

(** The deletes: delete calls only, for the ids in order, as far as the
    loop gets. *)
Lemma for_each_deletes_in_order ids :
  forall fuel s r,
    run env fuel (for_each ids (delete_one self)) s = Some r ->
    forallb is_delete (log r) = true /\
    (exists rest, ids = pick deleted_id (log r) ++ rest) /\
    (outcome r = inr tt -> pick deleted_id (log r) = ids).
Proof.
  induction ids as [|i ids IH]; intros fuel s r; cbn [for_each].
  - run_through. run_done. cbn. repeat split. exists []. reflexivity.
  - rewrite run_mbind.
    destruct (run env fuel (delete_one self i) s) as [[f1 s1 l1 [x|[]]]|] eqn:E1;
      cbn; [| |discriminate].
    + run_done. apply delete_one_round in E1. cbn in *.
      destruct E1 as (e & -> & Hd & Hid). cbn. rewrite Hd, Hid.
      repeat split; [|discriminate]. exists ids. reflexivity.
    + destruct (run env f1 (for_each ids (delete_one self)) s1) as [r2|] eqn:E2;
        [|discriminate].
      run_done. apply delete_one_round in E1. apply IH in E2. cbn in *.
      destruct E1 as (e & -> & Hd & Hid), E2 as (Hall & (rest & Hrest) & Hdone).
      cbn. rewrite Hd, Hid, Hall. repeat split.
      * exists rest. cbn. rewrite <- Hrest. reflexivity.
      * intros Hout. rewrite (Hdone Hout). reflexivity.
Qed.

(** Each round of the [for] loop takes one await, whatever it is
    answered; so the loop ends within one await per id. *)
Lemma delete_one_total msg_id fuel s :
  exists r, run env (S fuel) (delete_one self msg_id) s = Some r /\
            fuel_left r = fuel.
Proof.
  unfold delete_one, assert. rewrite run_mbind, run_await.
  destruct (env (Linked (messages_delete msg_id (_thread_id self))) s)
    as [s1 [x|status]]; cbn.
  - eexists. split; reflexivity.
  - destruct (MessageDeleted.deleted status);
      [rewrite run_ret|rewrite run_raise]; cbn; eexists; split; reflexivity.
Qed.

Lemma for_each_delete_total ids :
  forall fuel s,
    List.length ids <= fuel ->
    run env fuel (for_each ids (delete_one self)) s <> None.
Proof.
  induction ids as [|i ids IH]; intros fuel s Hfuel; cbn [for_each].
  - rewrite run_ret. discriminate.
  - cbn in Hfuel. destruct fuel as [|fuel]; [lia|].
    rewrite run_mbind.
    destruct (delete_one_total i fuel s) as ([f1 s1 l1 [x|[]]] & -> & Hf);
      cbn in *; subst f1; [discriminate|].
    assert (Hle : List.length ids <= fuel) by lia.
    specialize (IH fuel s1 Hle).
    destruct (run env fuel (for_each ids (delete_one self)) s1); [discriminate|].
    elim IH. reflexivity.
Qed.

(** C9: in a run of the reset handler, a delete answered without
    [deleted = True] is the last operation of the run, which ends there
    with the assertion error; so a run that returns had every delete
    reported as deleted.  And the deleting does end: once the listing
    has ended with the ids to delete, one more unit of fuel per id is
    enough for the handler to end, having asked for the deletion of the
    ids in order up to the first delete that was refused or raised, and
    of no other. *)
Theorem reset_aborts_at_refused_delete :
  forall message fuel s,
    (forall r,
        run env fuel (on_reset self message) s = Some r ->
        (forall before e after,
            log r = before ++ e :: after ->
            delete_refused e = true ->
            after = [] /\ outcome r = inl AssertionError) /\
        (outcome r = inr tt ->
         forall e, In e (log r) -> delete_refused e = false)) /\
    (forall listing all_msgs more,
        run env fuel (while_true (list_more self) []) s = Some listing ->
        outcome listing = inr all_msgs ->
        List.length all_msgs <= more ->
        exists r deletes,
          run env (fuel + more) (on_reset self message) s = Some r /\
          log r = log listing ++ deletes /\
          forallb is_delete deletes = true /\
          (exists rest, all_msgs = pick deleted_id deletes ++ rest) /\
          (forall before e after,
              deletes = before ++ e :: after ->
              delete_refused e = true ->
              after = [] /\ outcome r = inl AssertionError) /\
          (outcome r = inr tt ->
           pick deleted_id deletes = all_msgs /\
           forall e, In e deletes -> delete_refused e = false)).
Proof.
  intros message fuel s. split.
  - intros r Hrun.
    destruct (on_reset_clean _ _ _ Hrun) as (Hhalts & _ & Hnone). split.
    + intros before e after Hlog Hrefused.
      destruct (halts_split _ _ _ _ Hhalts Hlog (refused_is_failure _ Hrefused))
        as [-> Hout].
      split; [reflexivity|].
      destruct (outcome r) as [x|u]; [|discriminate Hout].
      injection Hout as ->. reflexivity.
    + intros Hout e Hin. apply (no_failure_no_refusal (log r)); [|exact Hin].
      apply Hnone. rewrite Hout. reflexivity.
  - intros [f1 s1 l1 out1] all_msgs more Hlisting Hout1 Hmore.
    cbn in Hout1. subst out1.
    apply (run_more_fuel env more) in Hlisting. cbn in Hlisting.
    destruct (run env (f1 + more) (for_each all_msgs (delete_one self)) s1)
      as [r2|] eqn:E2;
      [|assert (Hle : List.length all_msgs <= f1 + more) by lia;
        elim (for_each_delete_total all_msgs s1 Hle E2)].
    exists (Ran (fuel_left r2) (final r2) (l1 ++ log r2) (outcome r2)), (log r2).
    split; [unfold on_reset; rewrite run_mbind, Hlisting; cbn; rewrite E2;
            reflexivity|].
    split; [reflexivity|].
    destruct (for_each_deletes_in_order _ _ _ E2) as (Hdel & Hprefix & Hdone).
    destruct (for_each_delete_clean _ _ _ E2) as [(Hhalts & _ & Hnone) _].
    cbn [outcome log].
    split; [exact Hdel|]. split; [exact Hprefix|]. split.
    + intros before e after Hlog Hrefused.
      destruct (halts_split _ _ _ _ Hhalts Hlog (refused_is_failure _ Hrefused))
        as [-> Hout].
      split; [reflexivity|].
      destruct (outcome r2) as [x|u]; [|discriminate Hout].
      injection Hout as ->. reflexivity.
    + intros Hout. split; [exact (Hdone Hout)|].
      intros e Hin. apply (no_failure_no_refusal (log r2)); [|exact Hin].
      apply Hnone. rewrite Hout. reflexivity.
Qed.

End ResetFacts.

(* ===================================================================== *)
(** * Reset, against the model of the vendor *)

Lemma firstn_plus {A} c p (l : list A) :
  firstn (c + p) l = firstn c l ++ firstn p (skipn c l).
Proof.
  revert l. induction c as [|c IH]; intros l; [reflexivity|].
  destruct l as [|a l]; cbn; [now rewrite firstn_nil|].
  rewrite IH. reflexivity.
Qed.

(** The cursor: after the last of the first [c] ids come the messages
    from position [c] on, ids being distinct. *)
Lemma after_last_collected (l : list Message.t) :
  NoDup (map Message.id l) ->
  forall c, 0 < c -> c <= List.length l ->
  after_id (last (map Message.id (firstn c l)) "") l = skipn c l.
Proof.
  induction l as [|m l IH]; intros Hnd c Hpos Hc; cbn in Hc; [lia|].
  destruct c as [|c]; [lia|]. cbn [firstn map skipn].
  inversion Hnd as [|? ? Hnotin Hnd']; subst.
  destruct c as [|c].
  - cbn. rewrite String.eqb_refl. reflexivity.
  - assert (Hin : In (last (map Message.id (firstn (S c) l)) "") (map Message.id l)).
    { destruct l as [|m' l]; [cbn in Hc; lia|].
      apply in_map_iff.
      assert (Hne : map Message.id (firstn (S c) (m' :: l)) <> []) by discriminate.
      pose proof (app_removelast_last "" Hne) as Hsplit.
      assert (Hl : In (last (map Message.id (firstn (S c) (m' :: l))) "")
                      (map Message.id (firstn (S c) (m' :: l)))).
      { rewrite Hsplit at 2. apply in_or_app. right. now left. }
      apply in_map_iff in Hl. destruct Hl as (x & Hx & Hxin).
      exists x. split; [exact Hx|]. rewrite <- (firstn_skipn (S c) (m' :: l)).
      apply in_or_app. now left. }
    replace (last (Message.id m :: map Message.id (firstn (S c) l)) "")
      with (last (map Message.id (firstn (S c) l)) "").
    2:{ destruct l as [|m' l]; [cbn in Hc; lia|]. reflexivity. }
    cbn [after_id].
    destruct (String.eqb (Message.id m) (last (map Message.id (firstn (S c) l)) "")) eqn:He.
    + apply String.eqb_eq in He. rewrite <- He in Hin. contradiction.
    + apply IH; [exact Hnd'|lia|lia].
Qed.

Lemma ceil_div_small n p : 0 < p -> n <= p -> Nat.max 1 (ceil_div n p) = 1.
Proof.
  intros Hp Hn. unfold ceil_div.
  assert ((n + p - 1) / p < 2); [|lia].
  apply Nat.Div0.div_lt_upper_bound. lia.
Qed.

Lemma ceil_div_large n p :
  0 < p -> p < n ->
  Nat.max 1 (ceil_div n p) = S (Nat.max 1 (ceil_div (n - p) p)).
Proof.
  intros Hp Hn. unfold ceil_div.
  replace (n + p - 1) with ((n - p + p - 1) + 1 * p) by lia.
  rewrite Nat.div_add by lia.
  assert (1 <= (n - p + p - 1) / p); [|lia].
  apply Nat.div_le_lower_bound; lia.
Qed.

Section ResetAgainstVendor.

Variable self : OpenAIAssistantAgent.
Variable w : world.
Hypothesis not_cancelled : cancel_at w = None.

Lemma vendor_list tid after :
  vendor (Linked (messages_list tid None None after)) w =
  (w, inr (list_page w None None after)).
Proof.
  unfold vendor, cancelled. rewrite not_cancelled. cbn.
  unfold tick. rewrite not_cancelled. reflexivity.
Qed.

Hypothesis positive_page_size : 0 < page_size w.
Hypothesis distinct_ids : NoDup (map Message.id (rev (thread_messages w))).

(** One round of the loop with [c] ids collected: one list call, which
    ends the loop if no more than a page was left. *)
Lemma vendor_list_more c fuel :
  c <= List.length (rev (thread_messages w)) ->
  exists e,
    run vendor (S fuel)
        (list_more self (map Message.id (firstn c (rev (thread_messages w))))) w =
    Some (Ran fuel w [e]
            (inr (if Nat.leb (List.length (rev (thread_messages w)) - c) (page_size w)
                  then inr (map Message.id (rev (thread_messages w)))
                  else inl (map Message.id
                              (firstn (c + page_size w) (rev (thread_messages w))))))) /\
    is_list e = true /\ is_delete e = false.
Proof.
  intros Hc. set (L := rev (thread_messages w)) in *.
  assert (Hpage : forall after,
             match after with Some a => after_id a L | None => L end = skipn c L ->
             list_page w None None after =
             Page.mk (firstn (page_size w) (skipn c L))
                     (negb (Nat.leb (List.length L - c) (page_size w)))).
  { intros after Hafter. unfold list_page, ordered. fold L.
    replace (match after with Some a => after_id a L | None => L end)
      with (skipn c L) by (destruct after; symmetry; exact Hafter).
    rewrite length_skipn. reflexivity. }
  assert (Hall : map Message.id (firstn c L) ++
                 map Message.id (firstn (page_size w) (skipn c L)) =
                 map Message.id (firstn (c + page_size w) L)).
  { rewrite <- map_app, <- firstn_plus. reflexivity. }
  assert (Hlast : List.length L - c <= page_size w ->
                  firstn (c + page_size w) L = L).
  { intros Hle. apply firstn_all2. lia. }
  unfold list_more. rewrite run_mbind.
  destruct (map Message.id (firstn c L)) as [|i0 all0] eqn:Hcollected.
  - assert (c = 0) as ->.
    { destruct c as [|c]; [reflexivity|].
      destruct L; [cbn in Hc; lia|discriminate Hcollected]. }
    rewrite run_await, vendor_list, (Hpage None eq_refl). cbn.
    cbn in Hlast.
    destruct (Nat.leb (List.length L - 0) (page_size w)) eqn:Hle; cbn;
      rewrite run_ret; cbn;
      [rewrite (Hlast (proj1 (Nat.leb_le _ _) Hle))|];
      eexists; (split; [reflexivity|split; reflexivity]).
  - assert (0 < c) by (destruct c; [discriminate Hcollected|lia]).
    rewrite run_await, vendor_list.
    rewrite (Hpage (Some (last (i0 :: all0) ""))).
    2:{ rewrite <- Hcollected. apply after_last_collected; assumption. }
    cbn.
    change (i0 :: all0 ++ ?x) with ((i0 :: all0) ++ x).
    rewrite Hall.
    destruct (Nat.leb (List.length L - c) (page_size w)) eqn:Hle; cbn;
      rewrite run_ret; cbn;
      [rewrite (Hlast (proj1 (Nat.leb_le _ _) Hle))|];
      eexists; (split; [reflexivity|split; reflexivity]).
Qed.

(** The whole loop from [c] ids collected and [n] messages left: as many
    list calls as there are pages left, and at least one. *)
Lemma vendor_collects :
  forall n c,
    c + n = List.length (rev (thread_messages w)) ->
    exists l,
      run vendor (2 * Nat.max 1 (ceil_div n (page_size w)))
          (while_true (list_more self)
             (map Message.id (firstn c (rev (thread_messages w))))) w =
      Some (Ran 1 w l (inr (map Message.id (rev (thread_messages w))))) /\
      List.length l = Nat.max 1 (ceil_div n (page_size w)) /\
      forallb is_list l = true /\ existsb is_delete l = false.
Proof.
  induction n as [n IH] using lt_wf_ind. intros c Hc.
  assert (Hle : c <= List.length (rev (thread_messages w))) by lia.
  rewrite run_while_true.
  destruct (Nat.leb n (page_size w)) eqn:Hn.
  - apply Nat.leb_le in Hn.
    rewrite (ceil_div_small positive_page_size Hn).
    destruct (vendor_list_more 1 Hle) as (e & Hrun & He1 & He2).
    change (2 * 1) with 2. rewrite Hrun.
    replace (List.length (rev (thread_messages w)) - c) with n by lia.
    rewrite (proj2 (Nat.leb_le _ _) Hn). cbn.
    exists [e]. cbn. rewrite He1, He2. repeat split.
  - apply Nat.leb_gt in Hn.
    rewrite (ceil_div_large positive_page_size Hn).
    set (P := Nat.max 1 (ceil_div (n - page_size w) (page_size w))).
    replace (2 * S P) with (S (S (2 * P))) by lia.
    destruct (vendor_list_more (S (2 * P)) Hle) as (e & Hrun & He1 & He2).
    rewrite Hrun.
    replace (List.length (rev (thread_messages w)) - c) with n by lia.
    rewrite (proj2 (Nat.leb_gt _ _) Hn). cbn [and_then fuel_left final outcome log].
    destruct (IH (n - page_size w) ltac:(lia) (c + page_size w) ltac:(lia))
      as (l & Hl & Hlen & Hlist & Hdel).
    fold P in Hl, Hlen. rewrite Hl. cbn.
    exists (e :: l). cbn. rewrite He1, He2, Hlen, Hlist, Hdel. repeat split.
Qed.

End ResetAgainstVendor.

Lemma filter_all {A} (f : A -> bool) l :
  (forall a, In a l -> f a = true) -> filter f l = l.
Proof.
  induction l as [|a l IH]; intros H; cbn; [reflexivity|].
  rewrite (H a (or_introl eq_refl)), IH; [reflexivity|].
  intros b Hb. apply H. now right.
Qed.

Lemma filter_none {A} (f : A -> bool) l :
  (forall a, In a l -> f a = false) -> filter f l = [].
Proof.
  induction l as [|a l IH]; intros H; cbn; [reflexivity|].
  rewrite (H a (or_introl eq_refl)), IH; [reflexivity|].
  intros b Hb. apply H. now right.
Qed.

Lemma filter_filter {A} (f g : A -> bool) l :
  filter f (filter g l) = filter (fun a => g a && f a) l.
Proof.
  induction l as [|a l IH]; cbn; [reflexivity|].
  destruct (g a); cbn; [destruct (f a)|]; rewrite IH; reflexivity.
Qed.

Lemma vendor_delete w i tid :
  cancel_at w = None ->
  existsb (has_id i) (thread_messages w) = true ->
  vendor (Linked (messages_delete i tid)) w =
  (set_messages w (filter (fun m => negb (has_id i m)) (thread_messages w)),
   inr (MessageDeleted.mk i true)).
Proof.
  intros Hc Hin. unfold vendor, cancelled. rewrite Hc. cbn. rewrite Hin.
  unfold tick. cbn. rewrite Hc. reflexivity.
Qed.

(** Deleting ids that are all in the thread, each once: one delete call
    per id, each reported as deleted, and the messages are gone. *)
Lemma vendor_deletes self ids :
  forall w fuel,
    cancel_at w = None ->
    NoDup ids ->
    (forall i, In i ids -> existsb (has_id i) (thread_messages w) = true) ->
    List.length ids <= fuel ->
    exists r,
      run vendor fuel (for_each ids (delete_one self)) w = Some r /\
      outcome r = inr tt /\
      forallb is_delete (log r) = true /\
      existsb is_list (log r) = false /\
      pick deleted_id (log r) = ids /\
      thread_messages (final r) =
        filter (fun m => negb (existsb (String.eqb (Message.id m)) ids))
               (thread_messages w).
Proof.
  induction ids as [|i ids IH]; intros w fuel Hc Hnd Hin Hfuel; cbn [for_each].
  - rewrite run_ret. eexists. split; [reflexivity|]. cbn. repeat split.
    symmetry. apply filter_all. reflexivity.
  - destruct fuel as [|fuel]; [cbn in Hfuel; lia|].
    inversion Hnd as [|? ? Hnotin Hnd']; subst.
    unfold delete_one at 1. rewrite !run_mbind, run_await.
    rewrite (@vendor_delete w i _ Hc (Hin i (or_introl eq_refl))).
    cbn [and_then fuel_left final outcome log MessageDeleted.deleted assert].
    rewrite run_ret. cbn [and_then fuel_left final outcome log app].
    destruct (IH (set_messages w (filter (fun m => negb (has_id i m))
                                         (thread_messages w))) fuel)
      as (r & Hrun & Hout & Hdel & Hlist & Hids & Hfinal).
    + exact Hc.
    + exact Hnd'.
    + intros j Hj. cbn. apply existsb_exists.
      destruct (proj1 (existsb_exists _ _) (Hin j (or_intror Hj))) as (m & Hm & Hmj).
      exists m. split; [|exact Hmj]. apply filter_In. split; [exact Hm|].
      unfold has_id in *. apply String.eqb_eq in Hmj. rewrite Hmj.
      destruct (String.eqb j i) eqn:Hji; [|reflexivity].
      apply String.eqb_eq in Hji. exfalso. apply Hnotin. rewrite <- Hji. exact Hj.
    + cbn in Hfuel. lia.
    + rewrite Hrun, Hout. eexists. split; [reflexivity|]. cbn.
      rewrite Hdel, Hlist, Hids, Hfinal. cbn. rewrite filter_filter.
      repeat split. apply filter_ext. intros m. unfold has_id.
      rewrite negb_orb. reflexivity.
Qed.

Lemma deleted_ids_length l :
  forallb is_delete l = true ->
  List.length (pick deleted_id l) = List.length l.
Proof.
  induction l as [|e l IH]; cbn; [reflexivity|]. intros H.
  apply andb_prop in H. destruct H as [He Hl].
  unfold is_delete in He. unfold deleted_id at 1.
  destruct (call e); try discriminate He. cbn. rewrite (IH Hl). reflexivity.
Qed.

Lemma deleted_ids_of_lists l :
  forallb is_list l = true -> pick deleted_id l = [].
Proof.
  induction l as [|e l IH]; cbn; [reflexivity|]. intros H.
  apply andb_prop in H. destruct H as [He Hl].
  unfold is_list in He. unfold deleted_id at 1.
  destruct (call e); try discriminate He. exact (IH Hl).
Qed.

(** C6, as the code has it: against a vendor that lists the thread in
    pages of [page_size] with a next-page flag and deletes what it is
    asked to, a reset of a thread of N messages with distinct ids returns
    after [max 1 (ceil (N / page_size))] list calls (one even when the
    thread is empty) followed by N delete calls, one per message id,
    and leaves the thread empty. *)
Theorem reset_lists_by_page_and_deletes_all :
  forall self w fuel,
    cancel_at w = None ->
    0 < page_size w ->
    NoDup (map Message.id (thread_messages w)) ->
    2 * Nat.max 1 (ceil_div (List.length (thread_messages w)) (page_size w))
      + List.length (thread_messages w) <= fuel ->
    exists r,
      run vendor fuel (on_reset self Reset.mk) w = Some r /\
      outcome r = inr tt /\
      List.length (filter is_list (log r)) =
        Nat.max 1 (ceil_div (List.length (thread_messages w)) (page_size w)) /\
      List.length (filter is_delete (log r)) = List.length (thread_messages w) /\
      pick deleted_id (log r) = map Message.id (rev (thread_messages w)) /\
      thread_messages (final r) = [] /\
      Page.data (list_page (final r) None None None) = [].
Proof.
  intros self w fuel Hc Hp Hnd Hfuel.
  set (N := List.length (thread_messages w)) in *.
  set (P := Nat.max 1 (ceil_div N (page_size w))) in *.
  assert (Hnd' : NoDup (map Message.id (rev (thread_messages w)))).
  { rewrite map_rev. apply NoDup_rev. exact Hnd. }
  destruct (@vendor_collects self w Hc Hp Hnd' N 0) as (l & Hl & Hlen & Hlist & Hdel).
  { rewrite length_rev. reflexivity. }
  fold P in Hl, Hlen. cbn [firstn map] in Hl.
  apply run_more_fuel with (n := fuel - 2 * P) in Hl.
  cbn [fuel_left final outcome log] in Hl.
  replace (2 * P + (fuel - 2 * P)) with fuel in Hl by lia.
  destruct (@vendor_deletes self (map Message.id (rev (thread_messages w))) w
              (1 + (fuel - 2 * P)) Hc Hnd')
    as (r & Hrun & Hout & Hdel' & Hlist' & Hids & Hfinal).
  { intros i Hi. apply in_map_iff in Hi. destruct Hi as (m & <- & Hm).
    apply existsb_exists. exists m. split; [apply in_rev; exact Hm|].
    apply String.eqb_refl. }
  { rewrite length_map, length_rev. fold N. lia. }
  unfold on_reset. rewrite run_mbind, Hl. cbn [and_then fuel_left final outcome log].
  rewrite Hrun, Hout. eexists. split; [reflexivity|]. cbn [fuel_left final outcome log].
  assert (Hempty : thread_messages (final r) = []).
  { rewrite Hfinal. apply filter_none. intros m Hm.
    apply negb_false_iff, existsb_exists. exists (Message.id m).
    split; [|apply String.eqb_refl].
    apply in_map, in_rev. rewrite rev_involutive. exact Hm. }
  rewrite !filter_app, !length_app, pick_app, Hids.
  rewrite (filter_all is_list l), (filter_none is_list (log r)),
    (filter_none is_delete l), (filter_all is_delete (log r)).
  - rewrite (deleted_ids_of_lists _ Hlist), Hlen.
    repeat split.
    + apply Nat.add_0_r.
    + rewrite <- (deleted_ids_length _ Hdel'), Hids, length_map, length_rev.
      reflexivity.
    + exact Hempty.
    + unfold list_page, ordered. rewrite Hempty. cbn. apply firstn_nil.
  - apply forallb_forall. exact Hdel'.
  - intros e He. destruct (is_delete e) eqn:Hd; [|reflexivity].
    rewrite <- Hdel. symmetry. apply existsb_exists. exists e. tauto.
  - intros e He. destruct (is_list e) eqn:Hd; [|reflexivity].
    rewrite <- Hlist'. symmetry. apply existsb_exists. exists e. tauto.
  - apply forallb_forall. exact Hlist.
Qed.

(** C6, as stated, fails on an empty thread: one list call, not none. *)
Lemma reset_of_empty_thread_lists_once :
  ~ (forall r,
       run vendor 10 (on_reset assistant Reset.mk) (a_world [] None None) = Some r ->
       List.length (filter is_list (log r)) =
       ceil_div (List.length (thread_messages (a_world [] None None)))
                (page_size (a_world [] None None))).
Proof.
  intros H.
  destruct (run vendor 10 (on_reset assistant Reset.mk) (a_world [] None None))
    as [r|] eqn:E; [|vm_compute in E; discriminate E].
  specialize (H r eq_refl). vm_compute in E. injection E as <-.
  vm_compute in H. discriminate H.
Qed.

Lemma reset_lists_by_page_and_deletes_all_witness :
  exists r,
    run vendor 20 (on_reset assistant Reset.mk) five_messages = Some r /\
    outcome r = inr tt /\
    List.length (filter is_list (log r)) = 3 /\
    List.length (filter is_delete (log r)) = 5 /\
    pick deleted_id (log r) = ["msg_e"; "msg_d"; "msg_c"; "msg_b"; "msg_a"] /\
    thread_messages (final r) = [].
Proof.
  destruct (@reset_lists_by_page_and_deletes_all assistant five_messages 20)
    as (r & Hrun & Hout & Hlist & Hdel & Hids & Hfinal & _).
  - reflexivity.
  - cbn. lia.
  - cbn. repeat constructor; cbn; intuition discriminate.
  - vm_compute. lia.
  - exists r. repeat split; assumption.
Defined.

(** C9 at work: the service refuses the first delete it is asked for;
    the handler stops there with the assertion error, one delete call
    made out of five messages listed in three pages. *)
Lemma reset_aborts_at_refused_delete_witness :
  exists r,
    run refusing 10 (on_reset assistant Reset.mk) five_messages = Some r /\
    outcome r = inl AssertionError /\
    List.length (pick listed (log r)) = 3 /\
    pick deleted_id (log r) = ["msg_e"] /\
    List.length (thread_messages (final r)) = 5.
Proof.
  edestruct (proj2 (reset_aborts_at_refused_delete refusing assistant Reset.mk 5
                      five_messages))
    with (more := 5)
    as (r & deletes & Hrun & Hlog & _ & _ & Hrefused & _);
    [vm_compute; reflexivity|reflexivity|cbn; lia|].
  exists r. split; [exact Hrun|].
  vm_compute in Hrun. injection Hrun as <-. cbn [log outcome] in *.
  match type of Hlog with
  | ?a :: ?b :: ?c :: ?d = _ => apply (app_inv_head [a; b; c] d deletes) in Hlog
  end.
  split; [|repeat split].
  apply (Hrefused [] _ [] (eq_sym Hlog)). reflexivity.
Defined.
(* ===================================================================== *)
(** * Registration with the cancellation token, and what follows an
      exception *)

Lemma list_or_delete_is_no_body e :
  is_list e || is_delete e = true -> body_of e = None.
Proof.
  unfold is_list, is_delete, body_of.
  destruct (call e); cbn; (discriminate || reflexivity).
Qed.

Lemma exit_is_local c h :
  exit_of c = Some h -> is_remote c = false /\ body_of c = None.
Proof.
  unfold exit_of, is_remote, body_of.
  destruct (call c); cbn; (discriminate || (split; reflexivity)).
Qed.

Lemma aborted_is_raised e : aborted e = true -> raised e = Some CancelledError.
Proof.
  unfold aborted. destruct (raised e) as [[]|]; (discriminate || reflexivity).
Qed.

Lemma halts_unwinds l out :
  forallb (fun e => is_list e || is_delete e) l = true ->
  halts l out -> unwinds l out.
Proof.
  induction l as [|e l IH]; cbn; [tauto|].
  intros H. apply andb_prop in H. destruct H as [He Hl].
  unfold failure. rewrite (@list_or_delete_is_no_body _ He).
  destruct (raised e) as [x|].
  - tauto.
  - destruct (delete_refused e); [intros [-> _]; exact I|exact (IH Hl)].
Qed.

(** In a log that unwinds, what follows an exception is the exit of the
    block it was raised in, or nothing; no remote call follows, and the
    run ends with that exception unless the exit raises one. *)
Lemma unwinds_split l out before e after x :
  unwinds l out -> l = before ++ e :: after -> raised e = Some x ->
  match body_of e with
  | None => after = []
  | Some h => exists c, after = [c] /\ linked c = false /\ exit_of c = Some h
  end /\
  existsb is_remote after = false /\
  exists y, out = Some y /\ (pick raised after = [] -> y = x).
Proof.
  revert l. induction before as [|b before IH]; intros l Hl -> Hx; cbn in Hl.
  - rewrite Hx in Hl. destruct (body_of e) as [h|].
    + destruct Hl as (c & -> & Hc & Hexit & Hout).
      split; [exists c; repeat split; assumption|].
      destruct (@exit_is_local _ _ Hexit) as [Hlocal _].
      cbn. rewrite Hlocal. split; [reflexivity|].
      eexists. split; [exact Hout|].
      destruct (raised c); [discriminate|reflexivity].
    + destruct Hl as [-> Hout]. repeat split. exists x. tauto.
  - destruct (raised b) as [x0|]; [|exact (IH _ Hl eq_refl Hx)].
    destruct (body_of b) as [h|].
    + destruct Hl as (c & Hc & _ & Hexit & Hout).
      destruct before as [|b' before]; cbn in Hc;
        [|destruct before; discriminate Hc].
      injection Hc as <- ->. rewrite Hx in Hout.
      destruct (@exit_is_local _ _ Hexit) as [_ ->].
      repeat split. exists x. tauto.
    + destruct Hl as [Hnil _]. destruct before; discriminate Hnil.
Qed.

Lemma forallb_impl {A} (f g : A -> bool) l :
  (forall a, f a = true -> g a = true) ->
  forallb f l = true -> forallb g l = true.
Proof.
  intros Hfg. induction l as [|a l IH]; cbn; [reflexivity|].
  intros H. apply andb_prop in H. destruct H as [Ha Hl].
  rewrite (Hfg a Ha), (IH Hl). reflexivity.
Qed.

Ltac unwound :=
  unfold well_behaved; cbn; repeat first [split | eexists].

Section Cancellation.

Context {St : Type}.
Variable env : forall X, awaitE X -> St -> St * X.
Variable self : OpenAIAssistantAgent.

Lemma handle_message_well_behaved m fuel s r :
  run env fuel (handle_message self m) s = Some r -> well_behaved true r.
Proof.
  message_cases; unwound.
Qed.

Lemma on_upload_for_code_interpreter_well_behaved m fuel s r :
  run env fuel (on_upload_for_code_interpreter self m) s = Some r ->
  well_behaved false r.
Proof.
  upload_cases; unwound.
Qed.

Lemma on_upload_for_file_search_well_behaved m fuel s r :
  run env fuel (on_upload_for_file_search m) s = Some r -> well_behaved false r.
Proof.
  unfold on_upload_for_file_search. run_through; try run_done; unwound.
Qed.

(** The reset handler awaits list calls and delete calls only. *)
Lemma on_reset_lists_and_deletes m fuel s r :
  run env fuel (on_reset self m) s = Some r ->
  forallb (fun e => is_list e || is_delete e) (log r) = true.
Proof.
  unfold on_reset. rewrite run_mbind.
  destruct (run env fuel (while_true (list_more self) []) s)
    as [[f1 s1 l1 [x|all_msgs]]|] eqn:E1; cbn; [| |discriminate].
  - run_done. apply while_list_more_clean in E1. destruct E1 as [_ Hlists].
    cbn in *. rewrite app_nil_r. revert Hlists. apply forallb_impl.
    intros e ->. reflexivity.
  - destruct (run env f1 (for_each all_msgs (delete_one self)) s1) as [r2|] eqn:E2;
      [|discriminate].
    run_done. apply while_list_more_clean in E1. destruct E1 as [_ Hlists].
    apply for_each_deletes_in_order in E2. destruct E2 as [Hdeletes _].
    cbn in *. rewrite forallb_app. apply andb_true_intro. split.
    + revert Hlists. apply forallb_impl. intros e ->. reflexivity.
    + revert Hdeletes. apply forallb_impl. intros e ->. apply orb_true_r.
Qed.

Lemma on_reset_well_behaved m fuel s r :
  run env fuel (on_reset self m) s = Some r -> well_behaved false r.
Proof.
  intros Hrun. pose proof (on_reset_lists_and_deletes _ _ _ Hrun) as Hops.
  apply on_reset_clean in Hrun. destruct Hrun as (Hhalts & Hlinked & _).
  split; [apply halts_unwinds; assumption|].
  revert Hlinked. apply forallb_impl. intros e He.
  unfold registered. rewrite He. reflexivity.
Qed.

Lemma on_message_well_behaved m fuel s r :
  run env fuel (on_message self m) s = Some r -> well_behaved (opens_stream m) r.
Proof.
  destruct m as [m|m|m|m]; cbn [on_message]; rewrite run_mbind.
  - destruct (run env fuel (handle_message self m) s) as [[f1 s1 l1 [x|v]]|] eqn:E;
      cbn; try rewrite run_ret; cbn; try discriminate; run_done;
      apply handle_message_well_behaved in E;
      unfold well_behaved in *; cbn in *; rewrite app_nil_r; exact E.
  - destruct (run env fuel (on_reset self m) s) as [[f1 s1 l1 [x|v]]|] eqn:E;
      cbn; try rewrite run_ret; cbn; try discriminate; run_done;
      apply on_reset_well_behaved in E;
      unfold well_behaved in *; cbn in *; rewrite app_nil_r; exact E.
  - destruct (run env fuel (on_upload_for_code_interpreter self m) s)
      as [[f1 s1 l1 [x|v]]|] eqn:E;
      cbn; try rewrite run_ret; cbn; try discriminate; run_done;
      apply on_upload_for_code_interpreter_well_behaved in E;
      unfold well_behaved in *; cbn in *; rewrite app_nil_r; exact E.
  - destruct (run env fuel (on_upload_for_file_search m) s)
      as [[f1 s1 l1 [x|v]]|] eqn:E;
      cbn; try rewrite run_ret; cbn; try discriminate; run_done;
      apply on_upload_for_file_search_well_behaved in E;
      unfold well_behaved in *; cbn in *; rewrite app_nil_r; exact E.
Qed.

(** ** A token that is cancelled after [n] awaits *)

(** The listing loop takes two units of fuel for every page that has a
    next one, and the token lets at most [n] awaits complete. *)
Lemma token_list_loop n :
  forall all_msgs s fuel,
    2 * n + 2 <= fuel ->
    exists r,
      run (with_token env) fuel (while_true (list_more self) all_msgs) (n, s)
        = Some r /\
      2 * fst (final r) + 1 <= fuel_left r.
Proof.
  induction n as [|n IH]; intros all_msgs s fuel Hfuel;
    rewrite run_while_true; unfold list_more;
    (destruct fuel as [|fuel]; [lia|]).
  - destruct all_msgs; rewrite run_mbind, run_await; cbn;
      eexists; (split; [reflexivity|]); cbn; lia.
  - assert (Hstep : forall after,
      exists r,
        and_then
          (run (with_token env) (S fuel)
             (bind (await (messages_list (_thread_id self) None None after))
                (fun msgs =>
                   let all := all_msgs ++ map Message.id (Page.data msgs) in
                   if negb (Page.has_next_page msgs)
                   then ret (inr all) else ret (inl all)))
             (S n, s))
          (fun fuel' s' r =>
             match r with
             | inl e => Some (Ran fuel' s' [] (inl e))
             | inr (inl i') =>
                 match fuel' with
                 | 0 => None
                 | S fuel'' =>
                     run (with_token env) fuel'' (while_true (list_more self) i') s'
                 end
             | inr (inr x) => Some (Ran fuel' s' [] (inr x))
             end) = Some r /\
        2 * fst (final r) + 1 <= fuel_left r).
    { intros after. rewrite run_mbind, run_await. cbn [with_token fst snd].
      destruct (env (Linked (messages_list (_thread_id self) None None after)) s)
        as [s1 [x|page]]; cbn [fst snd and_then fuel_left final log outcome app].
      - eexists. split; [reflexivity|]. cbn. lia.
      - destruct (Page.has_next_page page); cbn [negb]; rewrite run_ret;
          cbn [and_then fuel_left final log outcome app].
        + destruct fuel as [|fuel]; [lia|].
          destruct (IH (all_msgs ++ map Message.id (Page.data page)) s1 fuel)
            as (r & -> & Hleft); [lia|].
          eexists. split; [reflexivity|]. exact Hleft.
        + eexists. split; [reflexivity|]. cbn. lia. }
    destruct all_msgs; apply Hstep.
Qed.

(** The deleting loop takes one unit of fuel for every delete, and the
    token lets at most [n] awaits complete. *)
Lemma token_deletes ids :
  forall n s fuel,
    n + 1 <= fuel ->
    run (with_token env) fuel (for_each ids (delete_one self)) (n, s) <> None.
Proof.
  induction ids as [|i ids IH]; intros n s fuel Hfuel; cbn [for_each].
  - rewrite run_ret. discriminate.
  - destruct fuel as [|fuel]; [lia|].
    unfold delete_one at 1. unfold assert.
    rewrite !run_mbind, run_await. cbn [with_token fst snd].
    destruct n as [|n]; [cbn; discriminate|].
    destruct (env (Linked (messages_delete i (_thread_id self))) s)
      as [s1 [x|status]]; cbn [fst snd and_then fuel_left final log outcome app];
      [discriminate|].
    destruct (MessageDeleted.deleted status);
      [rewrite run_ret|rewrite run_raise; cbn; discriminate].
    cbn [and_then fuel_left final log outcome app].
    assert (Hle : n + 1 <= fuel) by lia.
    specialize (IH n s1 fuel Hle).
    destruct (run (with_token env) fuel (for_each ids (delete_one self)) (n, s1));
      [discriminate|elim IH; reflexivity].
Qed.

Lemma on_reset_token_total m n s fuel :
  2 * n + 2 <= fuel ->
  run (with_token env) fuel (on_reset self m) (n, s) <> None.
Proof.
  intros Hfuel. unfold on_reset. rewrite run_mbind.
  destruct (@token_list_loop n [] s fuel Hfuel) as ([f1 [n1 s1] l1 [x|all_msgs]] & -> & Hleft);
    cbn in *; [discriminate|].
  assert (Hle : n1 + 1 <= f1) by lia.
  pose proof (@token_deletes all_msgs n1 s1 f1 Hle) as Hdeletes.
  destruct (run (with_token env) f1 (for_each all_msgs (delete_one self)) (n1, s1));
    [discriminate|elim Hdeletes; reflexivity].
Qed.

Lemma on_message_token_total m n s fuel :
  2 * n + 6 <= fuel ->
  run (with_token env) fuel (on_message self m) (n, s) <> None.
Proof.
  intros Hfuel. destruct m as [m|m|m|m]; cbn [on_message]; rewrite run_mbind.
  - assert (Hle : 5 <= fuel) by lia.
    pose proof (@handle_message_total _ (with_token env) self m fuel (n, s) Hle) as H.
    destruct (run (with_token env) fuel (handle_message self m) (n, s))
      as [[f1 s1 l1 [x|v]]|]; cbn; try rewrite run_ret; cbn;
      [discriminate|discriminate|elim H; reflexivity].
  - assert (Hle : 2 * n + 2 <= fuel) by lia.
    pose proof (@on_reset_token_total m n s fuel Hle) as H.
    destruct (run (with_token env) fuel (on_reset self m) (n, s))
      as [[f1 s1 l1 [x|v]]|]; cbn; try rewrite run_ret; cbn;
      [discriminate|discriminate|elim H; reflexivity].
  - assert (Hle : 6 <= fuel) by lia.
    pose proof (@on_upload_for_code_interpreter_total _ (with_token env) self m
                  fuel (n, s) Hle) as H.
    destruct (run (with_token env) fuel (on_upload_for_code_interpreter self m) (n, s))
      as [[f1 s1 l1 [x|v]]|]; cbn; try rewrite run_ret; cbn;
      [discriminate|discriminate|elim H; reflexivity].
  - assert (Hle : 4 <= fuel) by lia.
    pose proof (@on_upload_for_file_search_total _ (with_token env) m fuel (n, s) Hle) as H.
    destruct (run (with_token env) fuel (on_upload_for_file_search m) (n, s))
      as [[f1 s1 l1 [x|v]]|]; cbn; try rewrite run_ret; cbn;
      [discriminate|discriminate|elim H; reflexivity].
Qed.

(** With a token cancelled from the start no handler returns: its first
    registered await is aborted. *)
Lemma on_message_cancelled_at_once m s fuel r :
  run (with_token env) fuel (on_message self m) (0, s) = Some r ->
  exists x, outcome r = inl x.
Proof.
  destruct m as [m|m|m|m]; cbn [on_message]; rewrite run_mbind.
  - unfold handle_message. rewrite run_mbind, run_await.
    destruct fuel as [|fuel]; [discriminate|].
    cbn. run_done. eexists. reflexivity.
  - unfold on_reset. rewrite run_mbind, run_while_true. unfold list_more.
    rewrite run_mbind, run_await.
    destruct fuel as [|fuel]; [discriminate|].
    cbn. run_done. eexists. reflexivity.
  - unfold on_upload_for_code_interpreter.
    rewrite run_mbind, run_async_with, run_await_direct.
    destruct fuel as [|fuel]; [discriminate|]. cbn [with_token fst snd].
    destruct (env (Direct (aiofiles_open (UploadForCodeInterpreter.file_path m) "rb")) s)
      as [s1 [x|f]]; cbn [fst snd and_then fuel_left final log outcome app pred];
      [run_done; eexists; reflexivity|].
    rewrite run_await.
    destruct fuel as [|fuel]; [discriminate|].
    cbn [with_token fst snd and_then fuel_left final log outcome app].
    rewrite run_await_direct.
    destruct fuel as [|fuel]; [discriminate|]. cbn [with_token fst snd].
    destruct (env (Direct (file_exit f)) s1) as [s2 [x|u]];
      cbn; run_done; eexists; reflexivity.
  - unfold on_upload_for_file_search.
    rewrite run_mbind, run_async_with, run_await_direct.
    destruct fuel as [|fuel]; [discriminate|]. cbn [with_token fst snd].
    destruct (env (Direct (aiofiles_open (UploadForFileSearch.file_path m) "rb")) s)
      as [s1 [x|f]]; cbn [fst snd and_then fuel_left final log outcome app pred];
      [run_done; eexists; reflexivity|].
    rewrite run_await.
    destruct fuel as [|fuel]; [discriminate|].
    cbn [with_token fst snd and_then fuel_left final log outcome app].
    rewrite run_await_direct.
    destruct fuel as [|fuel]; [discriminate|]. cbn [with_token fst snd].
    destruct (env (Direct (file_exit f)) s1) as [s2 [x|u]];
      cbn; run_done; eexists; reflexivity.
Qed.

End Cancellation.

(** C8, as the code has it.  In every run of every handler, against any
    environment, every remote call is awaited through the cancellation
    token, but, for a text message, the opening of the run stream, which
    is awaited directly; and once an awaited operation is answered by an
    exception (a cancellation delivered through the token, or a failure)
    nothing follows but, when it was raised in the body of an
    [async with] block, the exit of that very block: no remote call
    follows, and the handler ends with an exception, that one unless the
    exit raises another.  And with a token that is cancelled after [n]
    awaits the handler does end, within [2 * n + 6] steps, whatever the
    service answers: with an exception when the token is cancelled from
    the start, and, when an await was aborted, with the cancellation
    error unless the exit that follows raised another. *)
Theorem handlers_stop_at_cancellation :
  forall St (env : forall X, awaitE X -> St -> St * X) self m,
    (forall fuel s r,
        run env fuel (on_message self m) s = Some r ->
        forallb (fun e => registered e || (opens_stream m && is_stream_open e))
                (log r) = true /\
        (forall before e after x,
            log r = before ++ e :: after ->
            raised e = Some x ->
            match body_of e with
            | None => after = []
            | Some h =>
                exists c, after = [c] /\ linked c = false /\ exit_of c = Some h
            end /\
            existsb is_remote after = false /\
            exists y, outcome r = inl y /\ (pick raised after = [] -> y = x))) /\
    (forall n s fuel,
        2 * n + 6 <= fuel ->
        exists r,
          run (with_token env) fuel (on_message self m) (n, s) = Some r /\
          (n = 0 -> exists x, outcome r = inl x) /\
          (forall before e after,
              log r = before ++ e :: after ->
              aborted e = true ->
              exists y, outcome r = inl y /\
                        (pick raised after = [] -> y = CancelledError))).
Proof.
  intros St env self m. split.
  - intros fuel s r Hrun.
    destruct (on_message_well_behaved _ _ _ _ _ Hrun) as [Hunwinds Hregistered].
    split; [exact Hregistered|].
    intros before e after x Hlog Hx.
    destruct (unwinds_split _ _ _ _ Hunwinds Hlog Hx)
      as (Hexit & Hafter & y & Hout & Hy).
    split; [exact Hexit|]. split; [exact Hafter|].
    exists y. split; [|exact Hy].
    destruct (outcome r); [|discriminate Hout].
    injection Hout as ->. reflexivity.
  - intros n s fuel Hfuel.
    destruct (run (with_token env) fuel (on_message self m) (n, s)) as [r|] eqn:E;
      [|elim (@on_message_token_total St env self m n s fuel Hfuel E)].
    exists r. split; [reflexivity|]. split.
    + intros ->. exact (on_message_cancelled_at_once _ _ _ _ _ E).
    + intros before e after Hlog Haborted.
      destruct (on_message_well_behaved _ _ _ _ _ E) as [Hunwinds _].
      destruct (unwinds_split _ _ _ _ Hunwinds Hlog (aborted_is_raised _ Haborted))
        as (_ & _ & y & Hout & Hy).
      exists y. split; [|exact Hy].
      destruct (outcome r); [|discriminate Hout].
      injection Hout as ->. reflexivity.
Qed.

(** C8, as stated, fails on a text message: the token is cancelled while
    the second await, the opening of the run stream, is outstanding; that
    remote call is not registered and is answered by the vendor. *)
Lemma run_stream_is_opened_unregistered :
  ~ (forall r,
       run vendor 10 (on_message assistant (AText (TextMessage.mk "Hello" "user")))
           (a_world [] None (Some 1)) = Some r ->
       forallb registered (log r) = true /\
       nth_error (pick (fun e => Some (raised e)) (log r)) 1 =
         Some (Some CancelledError)).
Proof.
  intros H.
  destruct (run vendor 10 (on_message assistant (AText (TextMessage.mk "Hello" "user")))
                (a_world [] None (Some 1))) as [r|] eqn:E;
    [|vm_compute in E; discriminate E].
  destruct (H r eq_refl) as [Hreg _]. vm_compute in E. injection E as <-.
  vm_compute in Hreg. discriminate Hreg.
Qed.

Lemma handlers_stop_at_cancellation_witness :
  (exists r,
     run (with_token vendor) 10
         (on_message assistant (AText (TextMessage.mk "Hello" "user")))
         (2, a_world [] None None) = Some r /\
     map is_remote (log r) = [true; true; true; false] /\
     map aborted (log r) = [false; false; true; false] /\
     map exit_of (log r) = [None; None; None; Some (AStream 1)] /\
     outcome r = inl CancelledError /\
     map Message.role (thread_messages (snd (final r))) = ["user"]) /\
  (exists r,
     run (with_token endless) 12 (on_message assistant (AReset Reset.mk))
         (3, five_messages) = Some r /\
     map aborted (log r) = [false; false; false; true] /\
     outcome r = inl CancelledError).
Proof.
  split.
  - destruct (proj2 (handlers_stop_at_cancellation vendor assistant
                       (AText (TextMessage.mk "Hello" "user")))
                    2 (a_world [] None None) 10 (le_n 10))
      as (r & Hrun & _ & Haborted).
    exists r. split; [exact Hrun|].
    destruct (proj1 (handlers_stop_at_cancellation (with_token vendor) assistant
                       (AText (TextMessage.mk "Hello" "user")))
                    _ _ _ Hrun) as [_ Hstops].
    vm_compute in Hrun. injection Hrun as <-.
    destruct (Hstops [_; _] _ [_] CancelledError eq_refl eq_refl)
      as ((c & Hc & _ & Hexit) & _ & _).
    injection Hc as <-.
    destruct (Haborted [_; _] _ [_] eq_refl eq_refl) as (y & Hy & Hx).
    rewrite Hy, (Hx eq_refl). repeat split.
  - destruct (proj2 (handlers_stop_at_cancellation endless assistant
                       (AReset Reset.mk))
                    3 five_messages 12 (le_n 12))
      as (r & Hrun & _ & Haborted).
    exists r. split; [exact Hrun|].
    vm_compute in Hrun. injection Hrun as <-.
    destruct (Haborted [_; _; _] _ [] eq_refl eq_refl) as (y & Hy & Hx).
    rewrite Hy, (Hx eq_refl). repeat split.
Defined.

(* ===================================================================== *)
(** * More on the text message handler and the uploads *)

Section MoreHandlerFacts.

Context {St : Type}.
Variable env : forall X, awaitE X -> St -> St * X.
Variable self : OpenAIAssistantAgent.

(** X1: the text message handler, given fuel for its five awaits, ends,
    and its first awaited operation is a call, registered with the token,
    that asks the vendor to create a message in the agent's thread: the
    content of the incoming message, with the role user and the caller's
    source as the sender in the metadata.  It issues no other such call;
    and the only list call it makes asks for the newest message alone. *)
Theorem handle_message_asks_once_to_create_the_message :
  forall message fuel s,
    5 <= fuel ->
    exists r,
      run env fuel (handle_message self message) s = Some r /\
      (exists answer rest,
          log r = Entry true
                    (messages_create (_thread_id self)
                       (TextMessage.content message) "user"
                       [("sender", TextMessage.source message)])
                    answer :: rest) /\
      pick create_call (log r) =
        [(_thread_id self, TextMessage.content message, "user",
          [("sender", TextMessage.source message)])] /\
      (pick list_call (log r) = [] \/
       pick list_call (log r) = [(_thread_id self, Some "desc", Some 1, None)]).
Proof.
  intros message fuel s Hfuel.
  destruct (run env fuel (handle_message self message) s) as [r|] eqn:Hrun;
    [|elim (handle_message_total env self message s Hfuel Hrun)].
  exists r. split; [reflexivity|]. clear Hfuel. revert Hrun.
  message_cases; cbn; (split; [do 2 eexists; reflexivity|]);
    split; try reflexivity; tauto.
Qed.

(** X2: when the list call answers a page without any message, the text
    message handler raises the index error of [messages.data[0]]. *)
Theorem handle_message_empty_page_is_index_error :
  forall message fuel s r page,
    run env fuel (handle_message self message) s = Some r ->
    pick listed (log r) = [page] ->
    Page.data page = [] ->
    outcome r = inl IndexError.
Proof.
  intros message fuel s r page.
  message_cases; cbn; try discriminate;
    intros Hp; injection Hp as <-; cbn; try discriminate; reflexivity.
Qed.

(** X3: what a handler opens it exits, however it ends: the run stream
    the text message handler opened is exited once, and so is the file
    either upload handler opened; and none opens more than one. *)
Theorem handlers_exit_what_they_open :
  (forall message fuel s r,
      run env fuel (handle_message self message) s = Some r ->
      pick exited_stream (log r) = pick opened_stream (log r) /\
      List.length (pick opened_stream (log r)) <= 1) /\
  (forall message fuel s r,
      run env fuel (on_upload_for_code_interpreter self message) s = Some r ->
      pick exited_file (log r) = pick opened_file (log r) /\
      List.length (pick opened_file (log r)) <= 1) /\
  (forall message fuel s r,
      run env fuel (on_upload_for_file_search message) s = Some r ->
      pick exited_file (log r) = pick opened_file (log r) /\
      List.length (pick opened_file (log r)) <= 1).
Proof.
  split; [|split]; intros message fuel s r.
  - message_cases; cbn; split; try reflexivity; lia.
  - upload_cases; cbn; split; try reflexivity; lia.
  - unfold on_upload_for_file_search. run_through; try run_done;
      cbn; split; try reflexivity; lia.
Qed.

End MoreHandlerFacts.

Lemma handle_message_asks_once_to_create_the_message_witness :
  exists r,
    run vendor 5 (handle_message assistant (TextMessage.mk "Hello" "user"))
        (a_world [] None None) = Some r /\
    pick create_call (log r) = [("thread_1", "Hello", "user", [("sender", "user")])] /\
    map Message.role (thread_messages (final r)) = ["user"; "assistant"].
Proof.
  destruct (handle_message_asks_once_to_create_the_message vendor assistant
              (TextMessage.mk "Hello" "user") (a_world [] None None) (le_n 5))
    as (r & Hrun & _ & Hcreate & _).
  exists r. split; [exact Hrun|]. split; [exact Hcreate|].
  vm_compute in Hrun. injection Hrun as <-. reflexivity.
Defined.

Lemma handle_message_empty_page_is_index_error_witness :
  exists r,
    run emptied 10 (handle_message assistant (TextMessage.mk "Hello" "user"))
        (a_world [] None None) = Some r /\
    outcome r = inl IndexError.
Proof.
  eexists. split; [vm_compute; reflexivity|].
  eapply (handle_message_empty_page_is_index_error emptied assistant
            (TextMessage.mk "Hello" "user") 10 (a_world [] None None));
    vm_compute; reflexivity.
Defined.

Lemma handlers_exit_what_they_open_witness :
  exists r,
    run vendor 10 (handle_message assistant (TextMessage.mk "Hello" "user"))
        (a_world [] None (Some 2)) = Some r /\
    outcome r = inl CancelledError /\
    pick opened_stream (log r) = [1] /\
    pick exited_stream (log r) = [1].
Proof.
  eexists. split; [vm_compute; reflexivity|].
  split; [reflexivity|]. split; [reflexivity|].
  eapply (proj1 (handlers_exit_what_they_open vendor assistant)
            (TextMessage.mk "Hello" "user") 10 (a_world [] None (Some 2))).
  vm_compute. reflexivity.
Defined.

(* ===================================================================== *)
(** * More on reset *)

Lemma collected_app l1 l2 : collected (l1 ++ l2) = collected l1 ++ collected l2.
Proof. unfold collected. rewrite pick_app, map_app, concat_app. reflexivity. Qed.

Lemma deletes_list_nothing l :
  forallb is_delete l = true -> collected l = [].
Proof.
  unfold collected. induction l as [|e l IH]; cbn; [reflexivity|]. intros H.
  apply andb_prop in H. destruct H as [He Hl].
  destruct e as [lk X c rp]. unfold is_delete in He. unfold listed at 1. cbn in *.
  destruct c; try discriminate He. exact (IH Hl).
Qed.

Lemma list_is_no_delete e : is_list e = true -> is_delete e = false.
Proof.
  unfold is_list, is_delete. destruct (call e); (discriminate || reflexivity).
Qed.

Section MoreResetFacts.

Context {St : Type}.
Variable env : forall X, awaitE X -> St -> St * X.
Variable self : OpenAIAssistantAgent.

(** One round of the loop: one list call, with the last id collected as
    its cursor; its page, if it answers one, is collected, and the loop
    goes on exactly when the page has a next one. *)
Lemma list_more_round all_msgs fuel s r :
  run env fuel (list_more self all_msgs) s = Some r ->
  exists e,
    log r = [e] /\
    is_list e = true /\
    list_call e = Some (_thread_id self, None, None, last_of all_msgs) /\
    match outcome r with
    | inl x => listed e = None
    | inr (inl more) =>
        exists p, listed e = Some p /\ Page.has_next_page p = true /\
                  more = all_msgs ++ page_ids p
    | inr (inr all) =>
        exists p, listed e = Some p /\ Page.has_next_page p = false /\
                  all = all_msgs ++ page_ids p
    end.
Proof.
  unfold list_more.
  destruct all_msgs as [|i0 all0]; run_through; try run_done;
    try (eexists; repeat split; fail).
  all: destruct (Page.has_next_page t) eqn:Hnext; cbn [negb];
    run_through; run_done; cbn;
    eexists; (split; [reflexivity|]); (split; [reflexivity|]);
    (split; [reflexivity|]); eexists; repeat split; exact Hnext.
Qed.

(** The loop: list calls only, each with the last id collected so far as
    its cursor; what it returns is what it started from and what the
    pages held. *)
Lemma while_list_more_collects :
  forall fuel all_msgs s r,
    run env fuel (while_true (list_more self) all_msgs) s = Some r ->
    forallb is_list (log r) = true /\
    (forall ids, outcome r = inr ids -> ids = all_msgs ++ collected (log r)) /\
    (forall before e after,
        log r = before ++ e :: after ->
        list_call e =
          Some (_thread_id self, None, None, last_of (all_msgs ++ collected before))).
Proof.
  induction fuel as [fuel IH] using lt_wf_ind. intros all_msgs s r.
  rewrite run_while_true.
  destruct (run env fuel (list_more self all_msgs) s)
    as [[f1 s1 l1 out1]|] eqn:E1; [|discriminate].
  pose proof (run_fuel_left _ _ _ _ E1) as Hf.
  apply list_more_round in E1. cbn in E1, Hf.
  destruct E1 as (e1 & -> & Hlist & Hcall & Hout).
  assert (Hfirst : forall before e after,
             [e1] = before ++ e :: after ->
             list_call e =
               Some (_thread_id self, None, None,
                     last_of (all_msgs ++ collected before))).
  { intros before e after Heq.
    destruct before as [|b before]; [|destruct before; discriminate Heq].
    injection Heq as <- _. rewrite app_nil_r. exact Hcall. }
  destruct out1 as [x|[more|all]]; cbn.
  - run_done. cbn [log outcome app forallb]. rewrite Hlist.
    repeat split; [discriminate|exact Hfirst].
  - destruct f1 as [|f1]; [discriminate|].
    destruct (run env f1 (while_true (list_more self) more) s1) as [r2|] eqn:E2;
      [|discriminate].
    run_done. cbn [log outcome app]. apply IH in E2; [|lia].
    destruct E2 as (Hlists & Hids & Hcursors).
    destruct Hout as (p & Hp & _ & ->).
    assert (Hc1 : forall l, collected (e1 :: l) = page_ids p ++ collected l).
    { intros l. unfold collected. cbn. rewrite Hp. reflexivity. }
    cbn [forallb]. rewrite Hlist, Hlists. repeat split.
    + intros ids Hout. rewrite (Hids ids Hout), Hc1, app_assoc. reflexivity.
    + intros before e after Heq.
      destruct before as [|b before]; cbn in Heq; injection Heq as <- Heq.
      * rewrite app_nil_r. exact Hcall.
      * rewrite (Hcursors _ _ _ Heq), Hc1, app_assoc. reflexivity.
  - run_done. cbn [log outcome app forallb]. rewrite Hlist.
    destruct Hout as (p & Hp & _ & ->). repeat split; [|exact Hfirst].
    intros ids Hids. injection Hids as <-.
    unfold collected. cbn. rewrite Hp. cbn. rewrite app_nil_r. reflexivity.
Qed.

(** The shape of every run of the reset handler. *)
Lemma on_reset_shape message fuel s r :
  run env fuel (on_reset self message) s = Some r ->
  exists lists deletes,
    log r = lists ++ deletes /\
    forallb is_list lists = true /\
    forallb is_delete deletes = true /\
    (exists rest, collected lists = pick deleted_id deletes ++ rest) /\
    (outcome r = inr tt -> pick deleted_id deletes = collected lists) /\
    (forall before e after,
        lists = before ++ e :: after ->
        list_call e =
          Some (_thread_id self, None, None, last_of (collected before))).
Proof.
  unfold on_reset. rewrite run_mbind.
  destruct (run env fuel (while_true (list_more self) []) s)
    as [[f1 s1 l1 [x|all_msgs]]|] eqn:E1; cbn; [| |discriminate].
  - run_done. apply while_list_more_collects in E1. cbn in *.
    destruct E1 as (Hlists & _ & Hcursors).
    exists l1, []. rewrite app_nil_r. repeat split; try assumption.
    + exists (collected l1). reflexivity.
    + discriminate.
  - destruct (run env f1 (for_each all_msgs (delete_one self)) s1) as [r2|] eqn:E2;
      [|discriminate].
    run_done. apply while_list_more_collects in E1.
    apply for_each_deletes_in_order in E2. cbn in *.
    destruct E1 as (Hlists & Hids & Hcursors), E2 as (Hdel & Hprefix & Hdone).
    rewrite (Hids _ eq_refl) in Hprefix, Hdone.
    exists l1, (log r2). repeat split; assumption.
Qed.

(** X4: the reset handler first lists, then deletes, and deletes only
    what it listed: its delete calls name, in order, the ids the pages
    held, as far as it gets, and all of them when it returns. *)
Theorem reset_deletes_only_what_it_listed :
  forall message fuel s r,
    run env fuel (on_reset self message) s = Some r ->
    (exists lists deletes,
        log r = lists ++ deletes /\
        forallb is_list lists = true /\ forallb is_delete deletes = true) /\
    (exists rest, collected (log r) = pick deleted_id (log r) ++ rest) /\
    (outcome r = inr tt -> pick deleted_id (log r) = collected (log r)).
Proof.
  intros message fuel s r Hrun. apply on_reset_shape in Hrun.
  destruct Hrun as (lists & deletes & Hlog & Hl & Hd & Hprefix & Hdone & _).
  rewrite Hlog, collected_app, pick_app, (deletes_list_nothing _ Hd),
    (deleted_ids_of_lists _ Hl), app_nil_r. cbn [app].
  split; [|split; assumption].
  exists lists, deletes. repeat split; assumption.
Qed.

(** X5: every list call of the reset handler is for the agent's thread,
    with the default order and page size, and with the last id of the
    pages answered before it as its cursor: none for the first call. *)
Theorem reset_pages_by_last_id :
  forall message fuel s r before e after,
    run env fuel (on_reset self message) s = Some r ->
    log r = before ++ e :: after ->
    is_list e = true ->
    list_call e =
      Some (_thread_id self, None, None, last_of (collected before)).
Proof.
  intros message fuel s r before e after Hrun Hlog He.
  apply on_reset_shape in Hrun.
  destruct Hrun as (lists & deletes & Hlog' & _ & Hd & _ & _ & Hcursors).
  rewrite Hlog' in Hlog. symmetry in Hlog.
  assert (Hno : forall l l', deletes = l ++ e :: l' -> False).
  { intros l l' Heq. rewrite Heq, forallb_app in Hd.
    apply andb_prop in Hd. destruct Hd as [_ Hd]. cbn in Hd.
    rewrite (list_is_no_delete _ He) in Hd. discriminate Hd. }
  apply app_eq_app in Hlog. destruct Hlog as (l & [[_ Hl]|[Hlists Hl]]).
  - elim (Hno _ _ Hl).
  - destruct l as [|e' l]; cbn in Hl.
    + elim (Hno [] after). symmetry. exact Hl.
    + injection Hl as <- _. exact (Hcursors _ _ _ Hlists).
Qed.

(** X6: against a vendor every page of which reports a next page, the
    reset handler never ends, whatever the fuel: the loop breaks on a
    page without a next one only. *)
Theorem reset_runs_while_pages_report_a_next :
  (forall tid order limit after s, exists s' p,
      env (Linked (messages_list tid order limit after)) s = (s', inr p) /\
      Page.has_next_page p = true) ->
  forall message fuel s, run env fuel (on_reset self message) s = None.
Proof.
  intros Hnext message.
  assert (Hloop : forall fuel all_msgs s,
             run env fuel (while_true (list_more self) all_msgs) s = None).
  { induction fuel as [fuel IH] using lt_wf_ind. intros all_msgs s.
    rewrite run_while_true. unfold list_more. rewrite run_mbind.
    destruct fuel as [|fuel]; [destruct all_msgs; rewrite run_await; reflexivity|].
    assert (Hone : forall after,
               and_then
                 (and_then
                    (run env (S fuel)
                       (await (messages_list (_thread_id self) None None after)) s)
                    (fun fuel' s' r =>
                       match r with
                       | inl e => Some (Ran fuel' s' [] (inl e))
                       | inr msgs =>
                           run env fuel'
                             (if negb (Page.has_next_page msgs)
                              then ret (inr (all_msgs ++ map Message.id (Page.data msgs)))
                              else ret (inl (all_msgs ++ map Message.id (Page.data msgs))))
                             s'
                       end))
                 (fun fuel' s' r =>
                    match r with
                    | inl e => Some (Ran fuel' s' [] (inl e))
                    | inr (inl i') =>
                        match fuel' with
                        | 0 => None
                        | S fuel'' => run env fuel'' (while_true (list_more self) i') s'
                        end
                    | inr (inr x) => Some (Ran fuel' s' [] (inr x))
                    end) = None).
    { intros after. rewrite run_await.
      destruct (Hnext (_thread_id self) None None after s) as (s' & p & -> & Hp).
      cbn. rewrite Hp. cbn. rewrite run_ret. cbn.
      destruct fuel as [|fuel]; [reflexivity|]. rewrite IH by lia. reflexivity. }
    destruct all_msgs; apply Hone. }
  intros fuel s. unfold on_reset. rewrite run_mbind, Hloop. reflexivity.
Qed.

End MoreResetFacts.

Lemma reset_deletes_only_what_it_listed_witness :
  exists r,
    run vendor 20 (on_reset assistant Reset.mk) five_messages = Some r /\
    outcome r = inr tt /\
    pick deleted_id (log r) = collected (log r) /\
    collected (log r) = ["msg_e"; "msg_d"; "msg_c"; "msg_b"; "msg_a"].
Proof.
  eexists. split; [vm_compute; reflexivity|]. split; [reflexivity|].
  split; [|vm_compute; reflexivity].
  eapply (reset_deletes_only_what_it_listed vendor assistant Reset.mk 20
            five_messages); [vm_compute; reflexivity|reflexivity].
Defined.

Lemma reset_pages_by_last_id_witness :
  exists r e,
    run vendor 20 (on_reset assistant Reset.mk) five_messages = Some r /\
    nth_error (log r) 1 = Some e /\
    list_call e =
      Some ("thread_1", None, None, last_of (collected (firstn 1 (log r)))) /\
    last_of (collected (firstn 1 (log r))) = Some "msg_d".
Proof.
  do 2 eexists. split; [vm_compute; reflexivity|].
  split; [vm_compute; reflexivity|]. split; [|vm_compute; reflexivity].
  match goal with
  | |- list_call _ = Some (_, _, _, last_of (collected (firstn 1 (log ?r)))) =>
      eapply (@reset_pages_by_last_id _ vendor assistant Reset.mk 20
                five_messages r (firstn 1 (log r)) _ (skipn 2 (log r)))
  end; [vm_compute; reflexivity|reflexivity|reflexivity].
Defined.

Lemma reset_runs_while_pages_report_a_next_witness :
  run endless 1000 (on_reset assistant Reset.mk) five_messages = None.
Proof.
  apply (reset_runs_while_pages_report_a_next endless assistant).
  intros tid order limit after s. do 2 eexists. split; reflexivity.
Defined.

(* ===================================================================== *)
(** * A token cancelled before the handler starts *)


Section CancelledFromStart.

Context {St : Type}.
Variable env : forall X, awaitE X -> St -> St * X.
Variable self : OpenAIAssistantAgent.

Hypothesis token_cancelled :
  forall X (o : op X) s, snd (env (Linked o) s) = inl CancelledError.






End CancelledFromStart.


(* ===================================================================== *)
(** * The base name of a joined path *)

Lemma rfind_append c a b :
  rfind c (String.append a b) =
  match rfind c b with
  | Some i => Some (String.length a + i)
  | None => rfind c a
  end.
Proof.
  induction a as [|x a IH]; cbn.
  - destruct (rfind c b); reflexivity.
  - rewrite IH. destruct (rfind c b); [reflexivity|].
    destruct (rfind c a); reflexivity.
Qed.

Lemma slice_from_append a b :
  slice_from (String.length a) (String.append a b) = b.
Proof. induction a as [|x a IH]; cbn; [destruct b; reflexivity|exact IH]. Qed.

(** The base name of a directory part, a separator and a name without
    separator is that name. *)
Lemma basename_of_joined_path dir name :
  rfind "/"%char name = None ->
  basename (String.append dir (String "/" name)) = name.
Proof.
  intros Hname. unfold basename.
  rewrite rfind_append. cbn [rfind]. rewrite Hname. cbn.
  replace (String.length dir + 0 + 1) with (String.length (String.append dir "/")).
  - replace (String.append dir (String "/" name))
      with (String.append (String.append dir "/") name).
    + apply slice_from_append.
    + clear. induction dir as [|x dir IH]; cbn; [reflexivity|].
      rewrite IH. reflexivity.
  - clear. induction dir as [|x dir IH]; cbn; [reflexivity|].
    rewrite IH. reflexivity.
Qed.

Section UploadedName.

Context {St : Type}.
Variable env : forall X, awaitE X -> St -> St * X.
Variable self : OpenAIAssistantAgent.

(** X9: for a path made of a directory part, a separator and a
    non-empty name without separator, either upload handler, given fuel
    for its awaits, ends, and unless the opening, the read or the closing
    of the local file raised, it sent the vendor exactly one file, under
    that name, whatever the directory part. *)
Theorem upload_is_sent_under_the_last_component :
  forall dir name,
    rfind "/"%char name = None ->
    0 < String.length name ->
    (forall fuel s,
        6 <= fuel ->
        exists r,
          run env fuel
              (on_upload_for_code_interpreter self
                 (UploadForCodeInterpreter.mk (String.append dir (String "/" name))))
              s = Some r /\
          (pick raised (firstn 3 (log r)) = [] ->
           map (map fst) (pick uploaded_file (log r)) = [[name]])) /\
    (forall vector_store fuel s,
        4 <= fuel ->
        exists r,
          run env fuel
              (on_upload_for_file_search
                 (UploadForFileSearch.mk (String.append dir (String "/" name))
                                         vector_store))
              s = Some r /\
          (pick raised (firstn 3 (log r)) = [] ->
           map (map fst) (pick uploaded_file (log r)) = [[name]])).
Proof.
  intros dir name Hname _. split.
  - intros fuel s Hfuel.
    destruct (run env fuel
                (on_upload_for_code_interpreter self
                   (UploadForCodeInterpreter.mk (String.append dir (String "/" name))))
                s) as [r|] eqn:E;
      [|exfalso; exact (on_upload_for_code_interpreter_total env self _ s Hfuel E)].
    exists r. split; [reflexivity|]. clear Hfuel. revert E.
    upload_cases; cbn -[basename]; intros H; try discriminate H;
      rewrite (@basename_of_joined_path dir name Hname); reflexivity.
  - intros vector_store fuel s Hfuel.
    destruct (run env fuel
                (on_upload_for_file_search
                   (UploadForFileSearch.mk (String.append dir (String "/" name))
                                           vector_store))
                s) as [r|] eqn:E;
      [|exfalso; exact (on_upload_for_file_search_total env _ s Hfuel E)].
    exists r. split; [reflexivity|]. clear Hfuel. revert E.
    unfold on_upload_for_file_search.
    run_through; try run_done; cbn -[basename]; intros H; try discriminate H;
      rewrite (@basename_of_joined_path dir name Hname); reflexivity.
Qed.

End UploadedName.

Lemma upload_is_sent_under_the_last_component_witness :
  (exists r,
     run vendor 6
         (on_upload_for_code_interpreter assistant
            (UploadForCodeInterpreter.mk "data/seattle_city_wages.csv"))
         (a_world [] (with_file_ids []) None) = Some r /\
     map (map fst) (pick uploaded_file (log r)) = [["seattle_city_wages.csv"]] /\
     map fst (file_store (final r)) = ["seattle_city_wages.csv"]) /\
  (exists r,
     run vendor 4
         (on_upload_for_file_search
            (UploadForFileSearch.mk "data/seattle_city_wages.csv" "vs_1"))
         (a_world [] None None) = Some r /\
     map (map fst) (pick uploaded_file (log r)) = [["seattle_city_wages.csv"]] /\
     get "vs_1" (vector_stores (final r)) = Some [("seattle_city_wages.csv", wages)]).
Proof.
  assert (Hname : 0 < String.length "seattle_city_wages.csv") by (cbn; lia).
  split.
  - destruct (proj1 (@upload_is_sent_under_the_last_component _ vendor assistant
                       "data" "seattle_city_wages.csv" eq_refl Hname)
                    6 (a_world [] (with_file_ids []) None) (le_n 6))
      as (r & Hrun & Hsent).
    exists r. split; [exact Hrun|].
    vm_compute in Hrun. injection Hrun as <-.
    split; [exact (Hsent eq_refl)|reflexivity].
  - destruct (proj2 (@upload_is_sent_under_the_last_component _ vendor assistant
                       "data" "seattle_city_wages.csv" eq_refl Hname)
                    "vs_1" 4 (a_world [] None None) (le_n 4))
      as (r & Hrun & Hsent).
    exists r. split; [exact Hrun|].
    vm_compute in Hrun. injection Hrun as <-.
    split; [exact (Hsent eq_refl)|reflexivity].
Defined.

(* ===================================================================== *)
(** * An upload that is not linked to the thread *)

(** X8: against the model of the vendor, when the handler raises after
    the upload (the thread has no code-interpreter entry, or the token is
    cancelled once the upload is made), the file stays in the vendor's
    file store and the thread's tool resources are as before: the upload
    is not undone. *)
Theorem upload_is_not_undone :
  forall self message w content fuel,
    get (UploadForCodeInterpreter.file_path message) (files w) = Some content ->
    (cancel_at w = None /\
     match thread_tool_resources w with
     | Some r => ToolResources.code_interpreter r = None
     | None => True
     end) \/ cancel_at w = Some 4 ->
    6 <= fuel ->
    exists r,
      run vendor fuel (on_upload_for_code_interpreter self message) w = Some r /\
      (exists x, outcome r = inl x) /\
      file_store (final r) =
        file_store w ++
        [(basename (UploadForCodeInterpreter.file_path message), content)] /\
      thread_tool_resources (final r) = thread_tool_resources w.
Proof.
  intros self message w content fuel Hfile Hcase Hfuel.
  do 6 (destruct fuel as [|fuel]; [lia|]). clear Hfuel.
  destruct w as [wfiles wopened wmsgs wres wstore wvs wcount wpage wanswer wcancel]. cbn in Hfile, Hcase.
  unfold on_upload_for_code_interpreter.
  destruct Hcase as [[-> Hentry] | ->].
  - repeat (first [ rewrite run_mbind | rewrite run_async_with | rewrite run_await
                  | rewrite run_await_direct | rewrite run_ret | rewrite run_raise ];
            cbn -[run basename nth]; rewrite ?Hfile, ?nth_middle; cbn -[run basename nth]).
    destruct wres as [[[ci|] fsr]|]; cbn in Hentry; try discriminate Hentry;
      cbn -[run basename]; rewrite run_raise; cbn -[basename];
      eexists; (split; [reflexivity|]); cbn -[basename]; repeat split;
      eexists; reflexivity.
  - repeat (first [ rewrite run_mbind | rewrite run_async_with | rewrite run_await
                  | rewrite run_await_direct | rewrite run_ret | rewrite run_raise ];
            cbn -[run basename nth]; rewrite ?Hfile, ?nth_middle; cbn -[run basename nth]).
    eexists. split; [reflexivity|]. cbn -[basename]. repeat split.
    eexists. reflexivity.
Qed.

Lemma upload_is_not_undone_witness :
  exists r,
    run vendor 10 (on_upload_for_code_interpreter assistant upload_wages)
        (a_world [] (with_file_ids ["file-A"]) (Some 4)) = Some r /\
    outcome r = inl CancelledError /\
    file_store (final r) = [("seattle_city_wages.csv", wages)] /\
    thread_tool_resources (final r) = with_file_ids ["file-A"].
Proof.
  destruct (@upload_is_not_undone assistant upload_wages
              (a_world [] (with_file_ids ["file-A"]) (Some 4)) wages 10)
    as (r & Hrun & _ & Hstore & Hres).
  - reflexivity.
  - right. reflexivity.
  - lia.
  - exists r. split; [exact Hrun|].
    split; [|split; [exact Hstore|exact Hres]].
    vm_compute in Hrun. injection Hrun as <-. reflexivity.
Defined.

(* ===================================================================== *)
(** * The event handler *)



Lemma prefix_split (a s : string) :
  String.prefix a s = true -> exists b, s = String.append a b.
Proof.
  revert s. induction a as [|x a IH]; intros s H.
  - exists s. reflexivity.
  - destruct s as [|y s]; cbn in H; [discriminate H|].
    destruct (ascii_dec x y) as [->|]; [|discriminate H].
    destruct (IH s H) as (b & ->). exists b. reflexivity.
Qed.

(** [s.replace(old, new)] is [s] when [old] does not occur in [s]. *)
Lemma replace_absent (old new s : string) :
  (forall a b, s <> String.append a (String.append old b)) ->
  replace old new s = s.
Proof.
  intros Habsent. destruct old as [|c old].
  - elim (Habsent "" s). reflexivity.
  - unfold replace. induction s as [|x s IH]; [reflexivity|].
    cbn [replace_from].
    destruct (String.prefix (String c old) (String x s)) eqn:Hp.
    + apply prefix_split in Hp. destruct Hp as (b & Hb).
      elim (Habsent "" b). exact Hb.
    + rewrite IH; [reflexivity|].
      intros a b Heq. apply (Habsent (String x a) b). cbn. rewrite Heq. reflexivity.
Qed.



(** X11: what [on_run_step_delta] prints for the tool calls of one delta
    is what it prints for them split over two deltas, one after the
    other: the code streams out the same however it is cut. *)
Theorem run_step_delta_prints_piecewise :
  forall l1 l2 stdout,
    EventHandler.on_run_step_delta
      (Stream.RunStepDelta.mk (Some (Stream.ToolCallDeltaObject (Some (l1 ++ l2)))))
      stdout =
    EventHandler.on_run_step_delta
      (Stream.RunStepDelta.mk (Some (Stream.ToolCallDeltaObject (Some l2))))
      (EventHandler.on_run_step_delta
         (Stream.RunStepDelta.mk (Some (Stream.ToolCallDeltaObject (Some l1))))
         stdout) /\
    EventHandler.on_run_step_delta
      (Stream.RunStepDelta.mk (Some (Stream.ToolCallDeltaObject None))) stdout =
    stdout /\
    EventHandler.on_run_step_delta (Stream.RunStepDelta.mk None) stdout = stdout.
Proof.
  intros l1 l2 stdout. unfold EventHandler.on_run_step_delta. cbn.
  rewrite fold_left_app. repeat split.
Qed.

Section OnMessageDoneFacts.

Context {St : Type}.
Variable files_retrieve : string -> St -> St * (exn + FileObject.t).



(** With a file service that answers every retrieval, the loop adds one
    line per citing annotation, labelled with the position of the
    annotation. *)
Lemma for_annotations_lines (file_of : string -> FileObject.t) annotations :
  (forall id s, files_retrieve id s = (s, inr (file_of id))) ->
  forall index c,
    EventHandler.failed c = None ->
    EventHandler.citations_now
      (EventHandler.for_annotations files_retrieve index annotations c) =
      EventHandler.citations_now c ++
      flat_map (fun ia =>
                  match Stream.Annotation.file_citation (snd ia) with
                  | Some citation =>
                      [String.append (EventHandler.marker (fst ia))
                         (String.append " "
                            (FileObject.filename
                               (file_of (Stream.FileCitation.file_id citation))))]
                  | None => []
                  end)
               (combine (seq index (List.length annotations)) annotations) /\
    EventHandler.failed
      (EventHandler.for_annotations files_retrieve index annotations c) = None /\
    EventHandler.env_now
      (EventHandler.for_annotations files_retrieve index annotations c) =
      EventHandler.env_now c.
Proof.
  intros Hfiles.
  induction annotations as [|a annotations IH]; intros index c Hc.
  - cbn. rewrite app_nil_r. repeat split. exact Hc.
  - cbn [EventHandler.for_annotations List.length seq combine flat_map fst snd].
    destruct (Stream.Annotation.file_citation a) as [citation|].
    + rewrite Hfiles.
      match goal with
      | |- context [EventHandler.for_annotations _ _ _ ?c0] =>
          destruct (IH (S index) c0 eq_refl) as (Hlines & Hnone & Henv)
      end.
      rewrite Hlines, Hnone, Henv. cbn [EventHandler.citations_now app].
      rewrite <- app_assoc. repeat split.
    + match goal with
      | |- context [EventHandler.for_annotations _ _ _ ?c0] =>
          destruct (IH (S index) c0 eq_refl) as (Hlines & Hnone & Henv)
      end.
      rewrite Hlines, Hnone, Henv. repeat split.
Qed.

(** X13: when the file service answers every retrieval, [on_message_done]
    prints, on one line each and in order, the citing annotations of the
    first text part as [[i] filename], where [i] is the position of the
    annotation among all the annotations of that part, citing or not; it
    prints nothing when none cites a file. *)
Theorem citations_are_labelled_by_position :
  forall (file_of : string -> FileObject.t) message stdout s,
    (forall id s', files_retrieve id s' = (s', inr (file_of id))) ->
    let d := EventHandler.on_message_done files_retrieve message stdout s in
    let annotations := EventHandler.first_annotations message in
    let lines :=
      flat_map (fun ia =>
                  match Stream.Annotation.file_citation (snd ia) with
                  | Some citation =>
                      [String.append (EventHandler.marker (fst ia))
                         (String.append " "
                            (FileObject.filename
                               (file_of (Stream.FileCitation.file_id citation))))]
                  | None => []
                  end)
               (combine (seq 0 (List.length annotations)) annotations) in
    EventHandler.raised_by d = None /\
    EventHandler.stdout_after d =
      match lines with
      | [] => stdout
      | _ :: _ => String.append stdout (String.append (join_lines lines) newline)
      end.
Proof.
  intros file_of [content] stdout s Hfiles.
  unfold EventHandler.on_message_done, EventHandler.first_annotations.
  cbn [Stream.Message.content].
  destruct content as [|[[value annotations]|file_id|url|refusal] others];
    cbn -[EventHandler.for_annotations seq]; try (split; reflexivity).
  destruct (for_annotations_lines file_of annotations Hfiles 0
              (EventHandler.Citing s value [] [] None) eq_refl)
    as (Hlines & Hnone & _).
  cbn [EventHandler.citations_now app] in Hlines.
  rewrite Hnone, Hlines.
  cbn [EventHandler.raised_by EventHandler.stdout_after].
  split; [reflexivity|].
  destruct (flat_map _ _); reflexivity.
Qed.

(** The loop leaves the value alone when no annotation names a text that
    occurs in it. *)
Lemma for_annotations_value annotations :
  forall index c,
    (forall a, In a annotations ->
               forall x y, EventHandler.value_now c <>
                           String.append x (String.append (Stream.Annotation.text a) y)) ->
    EventHandler.value_now
      (EventHandler.for_annotations files_retrieve index annotations c) =
    EventHandler.value_now c.
Proof.
  induction annotations as [|a annotations IH]; intros index c Habsent;
    [reflexivity|].
  cbn [EventHandler.for_annotations].
  rewrite (@replace_absent _ (EventHandler.marker index) _ (Habsent a (or_introl eq_refl))).
  destruct (Stream.Annotation.file_citation a) as [citation|].
  - destruct (files_retrieve _ _) as [s' [e|cited_file]]; [reflexivity|].
    rewrite IH; [reflexivity|].
    intros a' Ha'. apply Habsent. right. exact Ha'.
  - rewrite IH; [reflexivity|].
    intros a' Ha'. apply Habsent. right. exact Ha'.
Qed.

(** X14: [on_message_done] hands the message back with nothing changed
    but the value of its first text part: the other parts and the
    annotations are as they were; and when no annotation names a text
    that occurs in that value, the message is as it was, whatever the
    file service answers. *)
Theorem message_done_rewrites_the_first_text_only :
  forall message stdout s,
    let d := EventHandler.on_message_done files_retrieve message stdout s in
    tl (Stream.Message.content (EventHandler.message_after d)) =
      tl (Stream.Message.content message) /\
    EventHandler.first_annotations (EventHandler.message_after d) =
      EventHandler.first_annotations message /\
    map Stream.type (Stream.Message.content (EventHandler.message_after d)) =
      map Stream.type (Stream.Message.content message) /\
    (forall value annotations others,
        Stream.Message.content message =
          Stream.TextContentBlock (Stream.Text.mk value annotations) :: others ->
        (forall a, In a annotations ->
                   forall x y, value <>
                               String.append x
                                 (String.append (Stream.Annotation.text a) y)) ->
        EventHandler.message_after d = message).
Proof.
  intros [content] stdout s.
  unfold EventHandler.on_message_done, EventHandler.first_annotations.
  cbn [Stream.Message.content].
  destruct content as [|[[value annotations]|file_id|url|refusal] others];
    cbn -[EventHandler.for_annotations];
    try (split; [|split; [|split]]; try reflexivity; discriminate).
  destruct (EventHandler.failed _);
    cbn [EventHandler.message_after Stream.Message.content tl map Stream.type];
    (split; [|split; [|split]]; try reflexivity);
    intros value' annotations' others' Heq Habsent;
    injection Heq as <- <- <-;
    rewrite for_annotations_value by exact Habsent; reflexivity.
Qed.

End OnMessageDoneFacts.

Lemma citations_are_labelled_by_position_witness :
  EventHandler.stdout_after
    (EventHandler.on_message_done (fun id (s : unit) => (s, inr (shelf id)))
       cited_message "" tt) =
  String.append "[0] file-1.pdf"
    (String.append newline (String.append "[2] file-3.pdf" newline)).
Proof.
  apply (citations_are_labelled_by_position
           (fun id (s : unit) => (s, inr (shelf id))) shelf cited_message "" tt).
  reflexivity.
Defined.

Lemma message_done_rewrites_the_first_text_only_witness :
  EventHandler.message_after
    (EventHandler.on_message_done (fun id (s : unit) => (s, inr (shelf id)))
       plain_message "" tt) = plain_message.
Proof.
  eapply (proj2 (proj2 (proj2
            (message_done_rewrites_the_first_text_only
               (fun id (s : unit) => (s, inr (shelf id))) plain_message "" tt)))).
  - reflexivity.
  - intros a [<-|[]] x y. cbn.
    destruct x as [|c0 x]; cbn; [discriminate|].
    destruct x as [|c1 x]; cbn; [discriminate|].
    destruct x as [|c2 x]; cbn; [discriminate|].
    destruct x as [|c3 x]; cbn; discriminate.
Defined.
